(** * foodapi: nutrient extraction and the /foods request handler

    A shallow embedding of [src/index.ts].  The file has three layers:

    - [JS]: the part of the JavaScript runtime the program relies on
      (binary64 numbers, strings, JSON values, the coercions [String],
      [Number], truthiness, [toFixed], [parseInt], [Math.min]);
    - [FoodApi]: the program itself, function by function, with the names
      of the source;
    - the properties of the program, one theorem per specified claim.

    Strings are [string]s whose characters stand for the code units
    U+0000..U+00FF; on that range [trim], [toLowerCase] and the regular
    expression classes are the ones of ECMAScript.  Numbers are binary64
    values ([spec_float]); a finite one is [S754_finite s m e], of value
    (-1)^s * m * 2^e. *)

From Stdlib Require Import ZArith Lia Bool List String Ascii.
From Stdlib Require Import SpecFloat PrimFloat FloatOps.
Import ListNotations.
Set Warnings "-register-all".
Set Warnings "-inexact-float".
Local Open Scope string_scope.
Local Open Scope Z_scope.

Module JS.

(** ** Numbers *)

Definition number := spec_float.

Definition number_eqb (x y : number) : bool :=
  match x, y with
  | S754_zero a, S754_zero b => Bool.eqb a b
  | S754_infinity a, S754_infinity b => Bool.eqb a b
  | S754_nan, S754_nan => true
  | S754_finite a m e, S754_finite b m' e' =>
      Bool.eqb a b && Pos.eqb m m' && (e =? e')
  | _, _ => false
  end.

(** The integer nearest to [a / b] (for [0 <= a], [0 < b]), ties to even. *)
Definition round_half_even (a b : Z) : Z :=
  let q := a / b in
  match (2 * (a mod b) ?= b) with
  | Lt => q
  | Gt => q + 1
  | Eq => if Z.even q then q else q + 1
  end.

(** The integer nearest to [a / b], ties upwards. *)
Definition round_half_up (a b : Z) : Z := (2 * a + b) / (2 * b).

(** The binary64 value nearest to the rational [p / q] ([0 <= p], [0 < q])
    with sign [s]: round to nearest, ties to even, gradual underflow below
    2^-1022 and overflow to infinity.  This is how a decimal literal, the
    digits read by [Number] and the exact quotient of a division become a
    Number value.

    The quotient is taken in units of 2^-1074, the least positive value:
    with [2^k <= p * 2^1074 / q < 2^(k+1)], the 53-bit significand is
    [p * 2^1074 / (q * 2^sh)] rounded, for [sh = max (k - 52) 0], and the
    exponent is [sh - 1074]. *)
Definition nearest (s : bool) (p q : Z) : number :=
  if p <=? 0 then S754_zero s else
  let P := p * 2 ^ 1074 in
  let k := Z.log2 (P / q) in
  let sh := Z.max (k - 52) 0 in
  let m := round_half_even P (q * 2 ^ sh) in
  let '(m, sh) := if m =? 2 ^ 53 then (2 ^ 52, sh + 1) else (m, sh) in
  if sh >? 2045 then S754_infinity s else
  match m with
  | Zpos m => S754_finite s m (sh - 1074)
  | _ => S754_zero s
  end.

(** The exact value [m * 2^e] of a finite number, as a fraction. *)
Definition exact_num (m : positive) (e : Z) : Z := Zpos m * 2 ^ Z.max e 0.
Definition exact_den (e : Z) : Z := 2 ^ Z.max (- e) 0.

(** A binary64 value in canonical form: what a JSON number parses to. *)
Definition valid_number (x : number) : bool := SpecFloat.valid_binary 53 1024 x.

(** [x / y].  The quotient of two finite non-zero numbers is the exact
    quotient rounded by [nearest]; the other cases are the IEEE 754 table. *)
Definition div (x y : number) : number :=
  match x, y with
  | S754_finite sx mx ex, S754_finite sy my ey =>
      nearest (xorb sx sy)
        (exact_num mx ex * exact_den ey) (exact_den ex * exact_num my ey)
  | _, _ => SFdiv 53 1024 x y
  end.

(** [Number.isFinite] on a value already known to be a number. *)
Definition is_finite (x : number) : bool :=
  match x with
  | S754_zero _ | S754_finite _ _ _ => true
  | _ => false
  end.

Definition is_nan (x : number) : bool :=
  match x with S754_nan => true | _ => false end.

(** [x <= y] and [x < y]; false when either side is NaN. *)
Definition leb (x y : number) : bool := SFleb x y.
Definition ltb (x y : number) : bool := SFltb x y.

(** [Math.min(x, y)]: NaN if either is NaN, and -0 counts as below +0. *)
Definition Math_min (x y : number) : number :=
  if is_nan x || is_nan y then S754_nan
  else if ltb x y then x
  else if ltb y x then y
  else match x with S754_zero true => x | _ => y end.

(** The number an integer or decimal literal of the source denotes. *)
Definition of_Z (z : Z) : number := nearest (z <? 0) (Z.abs z) 1.
Definition of_decimal (mant ex : Z) : number := nearest false mant (10 ^ ex).

(** ** Strings *)

Definition code (c : ascii) : Z := Z.of_N (N_of_ascii c).

Definition is_digit (c : ascii) : bool := (48 <=? code c) && (code c <=? 57).

(** [\s]: WhiteSpace and LineTerminator (TAB, LF, VT, FF, CR, SP, NBSP). *)
Definition is_space (c : ascii) : bool :=
  ((9 <=? code c) && (code c <=? 13)) || (code c =? 32) || (code c =? 160).

(** [\w]: letters, digits and the underscore. *)
Definition is_word (c : ascii) : bool :=
  is_digit c || ((65 <=? code c) && (code c <=? 90))
  || ((97 <=? code c) && (code c <=? 122)) || (code c =? 95).

Definition lower (c : ascii) : ascii :=
  if ((65 <=? code c) && (code c <=? 90))
     || ((192 <=? code c) && (code c <=? 222) && negb (code c =? 215))
  then ascii_of_N (N_of_ascii c + 32) else c.

Fixpoint drop_spaces (l : list ascii) : list ascii :=
  match l with
  | c :: r => if is_space c then drop_spaces r else l
  | [] => []
  end.

Definition trim_list (l : list ascii) : list ascii :=
  rev (drop_spaces (rev (drop_spaces l))).

Definition trim (s : string) : string :=
  string_of_list_ascii (trim_list (list_ascii_of_string s)).

Definition toLowerCase (s : string) : string :=
  string_of_list_ascii (map lower (list_ascii_of_string s)).

Definition is_nil {A : Type} (l : list A) : bool :=
  match l with [] => true | _ => false end.

Definition is_empty (s : string) : bool :=
  match s with EmptyString => true | _ => false end.

(** [s.length] *)
Definition str_length (s : string) : Z := Z.of_nat (String.length s).

(** [arr.join(sep)] on strings. *)
Fixpoint join (sep : string) (l : list string) : string :=
  match l with
  | [] => ""
  | [x] => x
  | x :: r => x ++ sep ++ join sep r
  end.

(** ** Decimal digits *)

Definition digit_char (d : Z) : ascii := ascii_of_N (Z.to_N (48 + d)).

Fixpoint digits_fuel (fuel : nat) (n : Z) (acc : list ascii) : list ascii :=
  match fuel with
  | O => acc
  | S f =>
      let acc' := digit_char (n mod 10) :: acc in
      if n <? 10 then acc' else digits_fuel f (n / 10) acc'
  end.

(** The decimal digits of [n >= 0], most significant first, no leading
    zero ("0" for zero). *)
Definition digits (n : Z) : list ascii :=
  digits_fuel (S (Z.to_nat (Z.log2 n))) n [].

Definition digits_val (l : list ascii) : Z :=
  fold_left (fun acc c => 10 * acc + (code c - 48)) l 0.

Fixpoint span_digits (l : list ascii) : list ascii * list ascii :=
  match l with
  | c :: r =>
      if is_digit c then let '(a, b) := span_digits r in (c :: a, b)
      else ([], l)
  | [] => ([], [])
  end.

(** An optional sign: whether it is "-", and what follows it. *)
Definition split_sign (l : list ascii) : bool * list ascii :=
  match l with
  | "+"%char :: r => (false, r)
  | "-"%char :: r => (true, r)
  | _ => (false, l)
  end.

(** ** [Number(string)]: StringToNumber *)

(** ExponentPart without its [e]: an optional sign and at least one digit,
    up to the end of the string. *)
Definition parse_exponent (l : list ascii) : option Z :=
  let '(neg, r) := split_sign l in
  let '(ds, rest) := span_digits r in
  if is_nil ds || negb (is_nil rest) then None
  else Some (if neg then - digits_val ds else digits_val ds).

(** StrUnsignedDecimalLiteral other than Infinity: digits with an optional
    fraction and exponent, as [(mant, ex)] of value [mant * 10^ex]. *)
Definition parse_unsigned (l : list ascii) : option (Z * Z) :=
  let '(ip, r1) := span_digits l in
  let '(fp, r2) :=
    match r1 with
    | "."%char :: r => span_digits r
    | _ => ([], r1)
    end in
  if is_nil ip && is_nil fp then None else
  let mant := digits_val (ip ++ fp) in
  let sh := - Z.of_nat (List.length fp) in
  match r2 with
  | [] => Some (mant, sh)
  | c :: r3 =>
      if (c =? "e")%char || (c =? "E")%char then
        match parse_exponent r3 with
        | Some ex => Some (mant, ex + sh)
        | None => None
        end
      else None
  end.

Definition decimal_value (s : bool) (mant ex : Z) : number :=
  if ex <? 0 then nearest s mant (10 ^ (- ex)) else nearest s (mant * 10 ^ ex) 1.

Definition list_ascii_eqb (a b : list ascii) : bool :=
  String.eqb (string_of_list_ascii a) (string_of_list_ascii b).

Definition parse_decimal (l : list ascii) : number :=
  let '(neg, r) := split_sign l in
  if list_ascii_eqb r (list_ascii_of_string "Infinity") then S754_infinity neg
  else
    match parse_unsigned r with
    | Some (mant, ex) => decimal_value neg mant ex
    | None => S754_nan
    end.

Definition radix_digit (radix : Z) (c : ascii) : option Z :=
  let v :=
    if is_digit c then code c - 48
    else if (97 <=? code c) && (code c <=? 102) then code c - 87
    else if (65 <=? code c) && (code c <=? 70) then code c - 55
    else 99 in
  if v <? radix then Some v else None.

Fixpoint radix_val (radix : Z) (l : list ascii) (acc : Z) : option Z :=
  match l with
  | [] => Some acc
  | c :: r =>
      match radix_digit radix c with
      | Some v => radix_val radix r (radix * acc + v)
      | None => None
      end
  end.

(** NonDecimalIntegerLiteral: [0x], [0o] or [0b] and at least one digit. *)
Definition parse_nondecimal (l : list ascii) : option Z :=
  match l with
  | "0"%char :: p :: ((_ :: _) as ds) =>
      let radix :=
        if (p =? "x")%char || (p =? "X")%char then 16
        else if (p =? "o")%char || (p =? "O")%char then 8
        else if (p =? "b")%char || (p =? "B")%char then 2
        else 0 in
      if radix =? 0 then None else radix_val radix ds 0
  | _ => None
  end.

(** [Number(str)]: white space is trimmed, the empty string is +0, a
    string that is no numeric literal is NaN. *)
Definition StringToNumber (str : string) : number :=
  let t := trim_list (list_ascii_of_string str) in
  if is_nil t then S754_zero false else
  match parse_nondecimal t with
  | Some z => nearest false z 1
  | None => parse_decimal t
  end.

(** [Number.parseInt(str, 10)]: leading white space, a sign, and the longest
    run of digits; NaN when there is no digit. *)
Definition parseInt (str : string) : number :=
  let '(neg, r) := split_sign (drop_spaces (list_ascii_of_string str)) in
  let '(ds, _) := span_digits r in
  if is_nil ds then S754_nan else nearest neg (digits_val ds) 1.

(** ** [String(number)] and [toFixed] *)

Definition pad_zeros (k : nat) (l : list ascii) : list ascii :=
  repeat "0"%char (k - List.length l) ++ l.

(** The digits of [n] with a decimal point before the last [d] of them. *)
Definition fixed_digits (d : nat) (n : Z) : list ascii :=
  match d with
  | O => digits n
  | S _ =>
      let m := pad_zeros (S d) (digits n) in
      let k := (List.length m - d)%nat in
      firstn k m ++ "."%char :: skipn k m
  end.

(** Number::toString, steps 6 to 10: the digits [ds] of s and the exponent
    n laid out as an integer, with a decimal point, or with an exponent. *)
Definition sci_format (ds : list ascii) (n : Z) : list ascii :=
  let k := Z.of_nat (List.length ds) in
  if (k <=? n) && (n <=? 21) then ds ++ repeat "0"%char (Z.to_nat (n - k))
  else if (0 <? n) && (n <=? 21) then
    firstn (Z.to_nat n) ds ++ "."%char :: skipn (Z.to_nat n) ds
  else if (-6 <? n) && (n <=? 0) then
    "0"%char :: "."%char :: repeat "0"%char (Z.to_nat (- n)) ++ ds
  else
    let ex := n - 1 in
    let tail :=
      "e"%char :: (if ex <? 0 then "-"%char else "+"%char) :: digits (Z.abs ex) in
    match ds with
    | [] => tail
    | [d1] => d1 :: tail
    | d1 :: rest => d1 :: "."%char :: rest ++ tail
    end.

(** The least [n' >= n] with [p / q < 10^n'], within [fuel] steps. *)
Fixpoint find_n (fuel : nat) (n p q : Z) : Z :=
  match fuel with
  | O => n
  | S f =>
      if (if n <? 0 then p * 10 ^ (- n) <? q else p <? q * 10 ^ n) then n
      else find_n f (n + 1) p q
  end.

(** The layouts of the [k]-digit decimals next to [p / q]: the nearest one
    first, then its neighbour, then (for one digit) the next power of ten. *)
Definition candidates (p q n0 : Z) (k : nat) : list (list ascii) :=
  let sh := Z.of_nat k - n0 in
  let a := if sh <? 0 then p else p * 10 ^ sh in
  let b := if sh <? 0 then q * 10 ^ (- sh) else q in
  let near := round_half_even a b in
  let other := if near =? a / b then a / b + 1 else a / b in
  let ok s := (10 ^ (Z.of_nat k - 1) <=? s) && (s <? 10 ^ Z.of_nat k) in
  (if ok near then [sci_format (digits near) n0] else [])
  ++ (if ok other then [sci_format (digits other) n0] else [])
  ++ (match k with 1%nat => [sci_format ["1"%char] (n0 + 1)] | _ => [] end).

Definition reads_back (x : number) (l : list ascii) : bool :=
  number_eqb (StringToNumber (string_of_list_ascii l)) x.

(** Number::toString of the positive finite number [m * 2^e]: the shortest
    decimal (at most 17 digits) that [Number] reads back as the same value,
    the one nearest to it when several have that length.  Seventeen digits
    always suffice for a binary64 value; the last branch, the exact decimal
    expansion, only makes the function total. *)
Definition positive_to_chars (m : positive) (e : Z) : list ascii :=
  let p := exact_num m e in
  let q := exact_den e in
  let l := Z.log2 p - Z.log2 q in
  let n0 := find_n 8 ((l - 1) * 30102 / 100000 - 1) p q in
  match find (reads_back (S754_finite false m e))
             (flat_map (candidates p q n0) (seq 1 17)) with
  | Some l => l
  | None =>
      let d := Z.to_nat (- e) in
      fixed_digits d (round_half_up (p * 10 ^ Z.of_nat d) q)
  end.

(** [String(x)] for a number [x]. *)
Definition NumberToString (x : number) : string :=
  match x with
  | S754_nan => "NaN"
  | S754_infinity s => if s then "-Infinity" else "Infinity"
  | S754_zero _ => "0"
  | S754_finite s m e =>
      string_of_list_ascii ((if s then ["-"%char] else []) ++ positive_to_chars m e)
  end.

(** [x.toFixed(d)]: the decimal with [d] fraction digits nearest to the
    exact value of [x], ties away from zero; [String(x)] from 10^21 on and
    for the values that are not finite. *)
Definition toFixed (d : nat) (x : number) : string :=
  match x with
  | S754_finite s m e =>
      let p := exact_num m e in
      let q := exact_den e in
      if 10 ^ 21 * q <=? p then NumberToString x
      else
        string_of_list_ascii
          ((if s then ["-"%char] else [])
           ++ fixed_digits d (round_half_up (p * 10 ^ Z.of_nat d) q))
  | S754_zero _ => string_of_list_ascii (fixed_digits d 0)
  | _ => NumberToString x
  end.

(** ** Values and exceptions *)

(** A value: what [JSON.parse] builds, and [undefined] for what is absent.
    An object is its own properties, the first binding of a key being the
    property. *)
Inductive value : Type :=
| Undefined
| Null
| Bool (b : bool)
| Num (x : number)
| Str (s : string)
| Arr (elements : list value)
| Obj (properties : list (string * value)).

(** The outcome of an expression that may throw an [E]. *)
Inductive completion (E A : Type) : Type :=
| Return (a : A)
| Throw (e : E).
Arguments Return {E A} a.
Arguments Throw {E A} e.

Definition bind {E A B : Type} (c : completion E A) (k : A -> completion E B)
  : completion E B :=
  match c with
  | Return a => k a
  | Throw e => Throw e
  end.

(** [try { c } catch { return d }] *)
Definition try_catch {E A : Type} (c : completion E A) (d : E -> A) : A :=
  match c with
  | Return a => a
  | Throw e => d e
  end.

Declare Scope js_scope.
Delimit Scope js_scope with js.
Notation "x <- c ;; k" := (bind c (fun x => k))
  (at level 61, c at next level, right associativity) : js_scope.

(** The only exception the runtime itself raises in this program. *)
Inductive TypeError : Type := mkTypeError.

Fixpoint lookup (k : string) (fs : list (string * value)) : value :=
  match fs with
  | [] => Undefined
  | (k', v) :: r => if String.eqb k k' then v else lookup k r
  end.

Definition has_own (k : string) (fs : list (string * value)) : bool :=
  existsb (fun kv => String.eqb k (fst kv)) fs.

(** [v.k], for the keys this program reads (none of them is a property of a
    built-in prototype): reading from [null] or [undefined] throws. *)
Definition get (v : value) (k : string) : completion TypeError value :=
  match v with
  | Undefined | Null => Throw mkTypeError
  | Obj fs => Return (lookup k fs)
  | _ => Return Undefined
  end.

(** [v?.k] *)
Definition opt_get (v : value) (k : string) : value :=
  match v with
  | Obj fs => lookup k fs
  | _ => Undefined
  end.

Definition nullish (v : value) : bool :=
  match v with Undefined | Null => true | _ => false end.

(** [a ?? b] *)
Definition coalesce (a b : value) : value := if nullish a then b else a.

(** ToBoolean *)
Definition truthy (v : value) : bool :=
  match v with
  | Undefined | Null => false
  | Bool b => b
  | Num (S754_zero _) | Num S754_nan => false
  | Num _ => true
  | Str s => negb (is_empty s)
  | Arr _ | Obj _ => true
  end.

(** [a || b] *)
Definition or_else (a b : value) : value := if truthy a then a else b.

Definition is_number (v : value) : bool :=
  match v with Num _ => true | _ => false end.

Definition isArray (v : value) : bool :=
  match v with Arr _ => true | _ => false end.

(** [typeof v === 'object'] *)
Definition typeof_object (v : value) : bool :=
  match v with Null | Arr _ | Obj _ => true | _ => false end.

(** [String(v)].  An array joins its elements with commas, [null] and
    [undefined] elements as the empty string.  A parsed object has no
    callable property, so one that carries a [toString] key of its own
    cannot be converted; any other object is "[object Object]". *)
Fixpoint ToString (v : value) : completion TypeError string :=
  match v with
  | Undefined => Return "undefined"
  | Null => Return "null"
  | Bool b => Return (if b then "true" else "false")
  | Num x => Return (NumberToString x)
  | Str s => Return s
  | Arr l =>
      (fix elements (l : list value) : completion TypeError string :=
         match l with
         | [] => Return ""
         | x :: r =>
             bind (if nullish x then Return "" else ToString x) (fun a =>
             match r with
             | [] => Return a
             | _ => bind (elements r) (fun b => Return (a ++ "," ++ b))
             end)
         end) l
  | Obj fs =>
      if has_own "toString" fs then Throw mkTypeError
      else Return "[object Object]"
  end.

(** [Number(v)] *)
Definition ToNumber (v : value) : completion TypeError number :=
  match v with
  | Undefined => Return S754_nan
  | Null => Return (S754_zero false)
  | Bool b => Return (if b then of_Z 1 else S754_zero false)
  | Num x => Return x
  | Str s => Return (StringToNumber s)
  | Arr _ | Obj _ => bind (ToString v) (fun s => Return (StringToNumber s))
  end.

(** [v.toLowerCase()]: only a string has the method. *)
Definition call_toLowerCase (v : value) : completion TypeError string :=
  match v with
  | Str s => Return (toLowerCase s)
  | _ => Throw mkTypeError
  end.

(** [s.includes(sub)] *)
Definition includes (s sub : string) : bool :=
  match String.index 0 sub s with Some _ => true | None => false end.

End JS.

Module FoodApi.
Import JS.
Local Open Scope js_scope.

(** ** Nutrient extraction (index.ts, lines 465-514) *)

(** [String((n.nutrientNumber ?? n.number ?? '')).trim()] *)
Definition nutrient_number (n : value) : completion TypeError string :=
  a <- get n "nutrientNumber" ;;
  b <- (if nullish a then get n "number" else Return a) ;;
  s <- ToString (coalesce b (Str "")) ;;
  Return (trim s).

(** [String((n.nutrientName ?? n.name ?? '')).trim()] *)
Definition nutrient_name (n : value) : completion TypeError string :=
  a <- get n "nutrientName" ;;
  b <- (if nullish a then get n "name" else Return a) ;;
  s <- ToString (coalesce b (Str "")) ;;
  Return (trim s).

(** [idsOrNames.some(key => key === number ||
                          key.toLowerCase() === name.toLowerCase())] *)
Definition some_key_matches (idsOrNames : list string) (number name : string) : bool :=
  existsb (fun key =>
             String.eqb key number
             || String.eqb (toLowerCase key) (toLowerCase name))
          idsOrNames.

(** The [for] loop of [findNutrient]. *)
Fixpoint findNutrient_loop (nutrients : list value) (idsOrNames : list string)
  : completion TypeError (option value) :=
  match nutrients with
  | [] => Return None
  | n :: rest =>
      number <- nutrient_number n ;;
      name <- nutrient_name n ;;
      if some_key_matches idsOrNames number name then Return (Some n)
      else findNutrient_loop rest idsOrNames
  end.

(** [findNutrient]: the matching record, [None] for [null]. *)
Definition findNutrient (nutrients : list value) (idsOrNames : list string)
  : option value :=
  try_catch (findNutrient_loop nutrients idsOrNames) (fun _ => None).

(** [(match.unitName || match.unit || '').toLowerCase()] *)
Definition unit_of (m : value) : completion TypeError string :=
  a <- get m "unitName" ;;
  b <- (if truthy a then Return a
        else (u <- get m "unit" ;; Return (or_else u (Str "")))) ;;
  call_toLowerCase b.

(** [typeof match.value === 'number' ? match.value : Number(match.value)] *)
Definition value_of (m : value) : completion TypeError number :=
  v <- get m "value" ;;
  match v with
  | Num x => Return x
  | _ => ToNumber v
  end.

(** The literals [4.184] and [1000]. *)
Definition kJ_per_kcal : number := of_decimal 4184 3.
Definition mg_per_g : number := of_Z 1000.

(** [Number(x.toFixed(d))] *)
Definition Number_toFixed (d : nat) (x : number) : number :=
  StringToNumber (toFixed d x).

Definition getEnergyKcal_body (nutrients : list value)
  : completion TypeError (option number) :=
  match findNutrient nutrients ["1008"; "Energy"] with
  | None => Return None
  | Some m =>
      if negb (truthy m) then Return None else
      unit <- unit_of m ;;
      value <- value_of m ;;
      if negb (is_finite value) then Return None
      else if String.eqb unit "kj" then
        Return (Some (Number_toFixed 1 (div value kJ_per_kcal)))
      else Return (Some (Number_toFixed 1 value))
  end.

(** [getEnergyKcal]: kilocalories, or [None] for [null]. *)
Definition getEnergyKcal (nutrients : list value) : option number :=
  try_catch (getEnergyKcal_body nutrients) (fun _ => None).

Definition getNutrientGrams_body (nutrients : list value) (idsOrNames : list string)
  : completion TypeError (option number) :=
  match findNutrient nutrients idsOrNames with
  | None => Return None
  | Some m =>
      if negb (truthy m) then Return None else
      unit <- unit_of m ;;
      value <- value_of m ;;
      if negb (is_finite value) then Return None
      else if String.eqb unit "mg" then
        Return (Some (Number_toFixed 2 (div value mg_per_g)))
      else Return (Some (Number_toFixed 2 value))
  end.

(** [getNutrientGrams]: grams, or [None] for [null]. *)
Definition getNutrientGrams (nutrients : list value) (idsOrNames : list string)
  : option number :=
  try_catch (getNutrientGrams_body nutrients idsOrNames) (fun _ => None).

(** ** The food record normalizer (index.ts, lines 339-365) *)

Record Macros : Type := {
  protein_g : option number;
  carbs_g : option number;
  fat_g : option number
}.

Record NormalizedFood : Type := {
  fdcId : value;
  description : value;
  brandName : value;
  servingSize : value;
  servingSizeUnit : value;
  calories : option number;
  macros : Macros
}.

Definition protein_ids : list string := ["1003"; "Protein"].
Definition fat_ids : list string := ["1004"; "Total lipid (fat)"; "Total Fat"].
Definition carbs_ids : list string :=
  ["1005"; "Carbohydrate, by difference"; "Carbohydrate"].

(** [Array.isArray(item?.foodNutrients) ? item.foodNutrients : []] *)
Definition nutrients_of (item : value) : list value :=
  match opt_get item "foodNutrients" with
  | Arr l => l
  | _ => []
  end.

(** The body of the [map] callback; nothing in it can throw. *)
Definition normalize_body (item : value) : completion TypeError NormalizedFood :=
  let nutrients := nutrients_of item in
  let calories := getEnergyKcal nutrients in
  let protein := getNutrientGrams nutrients protein_ids in
  let fat := getNutrientGrams nutrients fat_ids in
  let carbs := getNutrientGrams nutrients carbs_ids in
  Return {|
    fdcId := coalesce (opt_get item "fdcId") Null;
    description := coalesce (opt_get item "description") Null;
    brandName :=
      coalesce (coalesce (opt_get item "brandName") (opt_get item "brandOwner")) Null;
    servingSize := coalesce (opt_get item "servingSize") Null;
    servingSizeUnit := coalesce (opt_get item "servingSizeUnit") Null;
    calories := calories;
    macros := {| protein_g := protein; carbs_g := carbs; fat_g := fat |}
  |}.

(** One step of [foods.map(...)]: [None] is the [null] of the [catch]. *)
Definition normalize (item : value) : option NormalizedFood :=
  try_catch (bind (normalize_body item) (fun r => Return (Some r))) (fun _ => None).

(** [foods.map(...).filter(Boolean)] *)
Definition normalized (foods : list value) : list NormalizedFood :=
  flat_map (fun item => match normalize item with Some r => [r] | None => [] end) foods.

(** ** Error classes (index.ts, lines 10-63) *)

(** An [originalError] is kept as the message of the [Error] it holds. *)
Inductive AppError : Type :=
| ValidationError (message : string)
| ConfigurationError (message : string)
| NetworkError (message : string) (originalError : option string)
| ParsingError (message : string) (originalError : option string)
| UpstreamAPIError (message : string) (upstreamStatus : Z) (upstreamResponse : value)
| FoodTypeError (message : string).

Definition error_name (err : AppError) : string :=
  match err with
  | ValidationError _ => "ValidationError"
  | ConfigurationError _ => "ConfigurationError"
  | NetworkError _ _ => "NetworkError"
  | ParsingError _ _ => "ParsingError"
  | UpstreamAPIError _ _ _ => "UpstreamAPIError"
  | FoodTypeError _ => "FoodTypeError"
  end.

Definition error_message (err : AppError) : string :=
  match err with
  | ValidationError m | ConfigurationError m | NetworkError m _
  | ParsingError m _ | UpstreamAPIError m _ _ | FoodTypeError m => m
  end.

(** The [statusCode] each constructor sets. *)
Definition statusCode (err : AppError) : Z :=
  match err with
  | ValidationError _ => 400
  | ConfigurationError _ => 500
  | NetworkError _ _ => 503
  | ParsingError _ _ => 422
  | UpstreamAPIError _ upstreamStatus _ =>
      if upstreamStatus >=? 500 then 503 else upstreamStatus
  | FoodTypeError _ => 400
  end.

(** ** Request validation (index.ts, lines 204-218)

    The chains of express-validator, each validator as validator.js
    documents it: a validator that fails adds its message, and the [trim]
    sanitizer rewrites the parameter before the validators run. *)

Record Request : Type := {
  query_type : option string;
  query_limit : option string
}.

(** [/^[a-zA-Z0-9\s\-_]+$/] *)
Definition food_type_pattern (s : string) : bool :=
  negb (is_empty s)
  && forallb (fun c => is_word c || is_space c || (c =? "-")%char)
       (list_ascii_of_string s).

(** [isInt({ min, max })]: an optional sign and digits, and the string,
    compared as a number, within the bounds. *)
Definition isInt (lo hi : Z) (s : string) : bool :=
  let '(_, r) := split_sign (list_ascii_of_string s) in
  negb (is_nil r) && forallb is_digit r
  && leb (of_Z lo) (StringToNumber s) && leb (StringToNumber s) (of_Z hi).

(** The parameter [type] as the sanitizer leaves it. *)
Definition sanitized_type (req : Request) : string :=
  match query_type req with
  | Some s => trim s
  | None => ""
  end.

Definition type_errors (req : Request) : list string :=
  let t := sanitized_type req in
  (if is_empty t then ["Missing required query parameter 'type'"] else [])
  ++ (if (1 <=? str_length t) && (str_length t <=? 100) then []
      else ["Food type must be between 1 and 100 characters"])
  ++ (if food_type_pattern t then []
      else ["Food type can only contain letters, numbers, spaces, hyphens, and underscores"]).

Definition limit_errors (req : Request) : list string :=
  match query_limit req with
  | None => []
  | Some s => if isInt 1 50 s then [] else ["Limit must be a number between 1 and 50"]
  end.

(** [validationResult(req).array().map(e => e.msg)] *)
Definition validateFoodsQuery (req : Request) : list string :=
  type_errors req ++ limit_errors req.

(** ** The upstream call *)

(** What [fetch] or [response.json()] throws: an [Error] with its name and
    message, or something else. *)
Inductive Thrown : Type :=
| ErrorObject (name message : string)
| NotAnError.

Inductive JsonResult : Type :=
| JsonValue (data : value)
| JsonThrows (error : Thrown).

Inductive FetchResult : Type :=
| FetchThrows (error : Thrown)
| Response (status : Z) (json : JsonResult).

(** The search request: [api_key], [query] and [pageSize]. *)
Definition Upstream : Type := string -> string -> string -> FetchResult.

(** [response.ok] *)
Definition response_ok (status : Z) : bool := (200 <=? status) && (status <=? 299).

Definition original_message (error : Thrown) : option string :=
  match error with
  | ErrorObject _ m => Some m
  | NotAnError => None
  end.

(** The [catch] around [fetch] (lines 289-299). *)
Definition network_error (error : Thrown) : AppError :=
  match error with
  | ErrorObject name message =>
      if String.eqb name "AbortError" then
        NetworkError "Request to USDA API timed out. Please try again later." (Some message)
      else if String.eqb name "TypeError" && includes message "fetch" then
        NetworkError "Failed to connect to USDA API. Please check your internet connection and try again." (Some message)
      else
        NetworkError "Network error occurred while fetching food data. Please try again later." (Some message)
  | NotAnError =>
      NetworkError "Network error occurred while fetching food data. Please try again later." None
  end.

Definition statusMessages (status : Z) : option string :=
  if status =? 400 then Some "Invalid request sent to USDA API"
  else if status =? 401 then Some "USDA API authentication failed"
  else if status =? 403 then Some "Access to USDA API denied"
  else if status =? 404 then Some "USDA API endpoint not found"
  else if status =? 429 then Some "USDA API rate limit exceeded"
  else if status =? 500 then Some "USDA API internal server error"
  else if status =? 502 then Some "USDA API gateway error"
  else if status =? 503 then Some "USDA API service unavailable"
  else if status =? 504 then Some "USDA API gateway timeout"
  else None.

(** [statusMessages[response.status] || 'USDA API error occurred'] *)
Definition upstream_message (status : Z) : string :=
  match statusMessages status with
  | Some m => m
  | None => "USDA API error occurred"
  end.

(** The branch [!response.ok] (lines 301-323). *)
Definition upstream_error (status : Z) (json : JsonResult) : AppError :=
  let errorBody :=
    match json with
    | JsonValue v => v
    | JsonThrows _ => Obj [("message", Str "Unknown upstream error")]
    end in
  UpstreamAPIError (upstream_message status) status errorBody.

(** ** The handler of GET /foods (index.ts, lines 221-376) *)

Record ErrorJson : Type := {
  error : string;
  type : string;
  upstream_status : option Z;
  upstream_details : option value;
  original_error : option string
}.

Record FoodsJson : Type := {
  query : string;
  limit : number;
  count : Z;
  foods : list NormalizedFood
}.

Inductive Body : Type :=
| ErrorBody (e : ErrorJson)
| FoodsBody (f : FoodsJson).

(** A response: its status and JSON body (the [timestamp] of an error body
    is left out). *)
Record HttpResponse : Type := {
  status : Z;
  body : Body
}.

(** Lines 236-251: the limit, 10 when the parameter is absent. *)
Definition parse_limit (req : Request) : completion AppError number :=
  let limitRaw := match query_limit req with Some s => s | None => "10" end in
  let limitParsed := parseInt limitRaw in
  if negb (is_finite limitParsed) || leb limitParsed (S754_zero false) then
    Throw (ValidationError
             ("Invalid limit value: '" ++ limitRaw ++ "'. Limit must be a positive number."))
  else Return (Math_min limitParsed (of_Z 50)).

(** The three [problematicPatterns]. *)
Definition only_numbers (s : string) : bool :=
  negb (is_empty s) && forallb is_digit (list_ascii_of_string s).

Definition only_special_characters (s : string) : bool :=
  negb (is_empty s)
  && forallb (fun c => negb (is_word c) && negb (is_space c)) (list_ascii_of_string s).

Definition reserved_word (s : string) : bool :=
  existsb (String.eqb (toLowerCase s)) ["test"; "debug"; "admin"; "system"].

Definition problematicPatterns : list (string -> bool) :=
  [only_numbers; only_special_characters; reserved_word].

(** Lines 253-273. *)
Definition check_food_type (query : string) : completion AppError unit :=
  if is_empty query then
    Throw (FoodTypeError "Food type cannot be empty. Please provide a valid food type to search for.")
  else if str_length query <? 2 then
    Throw (FoodTypeError "Food type must be at least 2 characters long for meaningful search results.")
  else if existsb (fun pattern => pattern query) problematicPatterns then
    Throw (FoodTypeError ("Invalid food type: '" ++ query ++ "'. Please provide a valid food name."))
  else Return tt.

(** Lines 325-337: the parsed body, which must be truthy and of type
    ['object']. *)
Definition parse_body (json : JsonResult) : completion AppError value :=
  match json with
  | JsonThrows error =>
      Throw (ParsingError
               "Failed to parse response from USDA API. The response format is invalid."
               (original_message error))
  | JsonValue data =>
      if negb (truthy data) || negb (typeof_object data) then
        Throw (ParsingError
                 "Invalid response format from USDA API. Expected an object but received invalid data."
                 None)
      else Return data
  end.

(** [Array.isArray(data?.foods) ? data.foods : []] *)
Definition foods_of (data : value) : list value :=
  match opt_get data "foods" with
  | Arr l => l
  | _ => []
  end.

(** The [try] block of the handler. *)
Definition foods_try (usdaApiKey : option string) (upstream : Upstream) (req : Request)
  : completion AppError HttpResponse :=
  match validateFoodsQuery req with
  | (_ :: _) as errors =>
      Throw (ValidationError ("Invalid request parameters: " ++ join ", " errors))
  | [] =>
      match usdaApiKey with
      | None | Some EmptyString =>
          Throw (ConfigurationError
                   "Server misconfiguration: USDA API key is not configured. Please contact the administrator.")
      | Some key =>
          let query := trim (sanitized_type req) in
          limit <- parse_limit req ;;
          _ <- check_food_type query ;;
          match upstream key query (NumberToString limit) with
          | FetchThrows error => Throw (network_error error)
          | Response status json =>
              if negb (response_ok status) then Throw (upstream_error status json)
              else
                data <- parse_body json ;;
                let normalized := normalized (foods_of data) in
                Return {|
                  status := 200;
                  body := FoodsBody {|
                    query := query;
                    limit := limit;
                    count := Z.of_nat (List.length normalized);
                    foods := normalized
                  |}
                |}
          end
      end
  end.

(** The global error handler, for the error classes of the program
    (lines 379-413). *)
Definition error_response (err : AppError) : HttpResponse :=
  {|
    status := statusCode err;
    body := ErrorBody {|
      error := error_message err;
      type := error_name err;
      upstream_status :=
        match err with
        | UpstreamAPIError _ s _ => Some s
        | _ => None
        end;
      upstream_details :=
        match err with
        | UpstreamAPIError _ _ r => if truthy r then Some r else None
        | _ => None
        end;
      original_error :=
        match err with
        | NetworkError _ o | ParsingError _ o => o
        | _ => None
        end
    |}
  |}.

(** GET /foods: the handler, then the error handler for what it passes to
    [next]. *)
Definition get_foods (usdaApiKey : option string) (upstream : Upstream) (req : Request)
  : HttpResponse :=
  try_catch (foods_try usdaApiKey upstream req) error_response.

End FoodApi.

(** * Properties *)

Import JS FoodApi.

(** ** Characters and digit strings *)

Lemma digit_not_space (c : ascii) : is_digit c = true -> is_space c = false.
Proof. unfold is_digit, is_space. lia. Qed.

Lemma digit_is_word (c : ascii) : is_digit c = true -> is_word c = true.
Proof. unfold is_word. intros ->. reflexivity. Qed.

Lemma digit_not_sign (c : ascii) :
  is_digit c = true -> c <> "+"%char /\ c <> "-"%char /\ c <> "."%char.
Proof.
  intros H. repeat split; intros ->; discriminate H.
Qed.

Lemma split_sign_digit (c : ascii) (r : list ascii) :
  is_digit c = true -> split_sign (c :: r) = (false, c :: r).
Proof.
  intros H. destruct (digit_not_sign c H) as (Hp & Hm & _).
  unfold split_sign.
  destruct c as [[] [] [] [] [] [] [] []]; try reflexivity; congruence.
Qed.

Lemma span_digits_all (l : list ascii) :
  forallb is_digit l = true -> span_digits l = (l, []).
Proof.
  induction l as [|c r IH]; simpl; [reflexivity|].
  intros H. apply andb_prop in H as [Hc Hr].
  rewrite Hc, (IH Hr). reflexivity.
Qed.

Lemma span_digits_app (l rest : list ascii) :
  forallb is_digit l = true ->
  match rest with [] => True | c :: _ => is_digit c = false end ->
  span_digits (l ++ rest) = (l, rest).
Proof.
  intros Hl Hrest. induction l as [|c r IH]; simpl in *.
  - destruct rest as [|c r]; [reflexivity|]. simpl. rewrite Hrest. reflexivity.
  - apply andb_prop in Hl as [Hc Hr]. rewrite Hc, (IH Hr). reflexivity.
Qed.

Lemma drop_spaces_head (c : ascii) (r : list ascii) :
  is_space c = false -> drop_spaces (c :: r) = c :: r.
Proof. intros H. simpl. rewrite H. reflexivity. Qed.

(** A string that neither starts nor ends with white space is its own trim. *)
Lemma trim_list_id (l : list ascii) :
  match l with [] => True | c :: _ => is_space c = false end ->
  match rev l with [] => True | c :: _ => is_space c = false end ->
  trim_list l = l.
Proof.
  intros Hfirst Hlast. unfold trim_list.
  assert (Hd : drop_spaces l = l).
  { destruct l as [|c r]; [reflexivity|]. now apply drop_spaces_head. }
  rewrite Hd.
  assert (Hr : drop_spaces (rev l) = rev l).
  { destruct (rev l) as [|c r]; [reflexivity|]. now apply drop_spaces_head. }
  rewrite Hr. apply rev_involutive.
Qed.

Lemma forallb_rev_head {A : Type} (f : A -> bool) (l : list A) :
  forallb f l = true ->
  match rev l with [] => True | c :: _ => f c = true end.
Proof.
  intros H. destruct (rev l) as [|c r] eqn:E; [exact I|].
  rewrite forallb_forall in H. apply H. apply in_rev. rewrite E. now left.
Qed.
Lemma list_ascii_eqb_digit_Infinity (c : ascii) (r : list ascii) :
  is_digit c = true -> list_ascii_eqb (c :: r) (list_ascii_of_string "Infinity") = false.
Proof.
  intros H. unfold list_ascii_eqb. simpl.
  destruct (Ascii.eqb_spec c "I"%char) as [->|Hne]; [discriminate H|reflexivity].
Qed.

Lemma parse_nondecimal_digits (l : list ascii) :
  forallb is_digit l = true -> parse_nondecimal l = None.
Proof.
  intros H. unfold parse_nondecimal.
  destruct l as [|a [|p [|d r]]]; try reflexivity.
  - destruct (a =? "0")%char; destruct a as [[] [] [] [] [] [] [] []]; reflexivity.
  - destruct a as [[] [] [] [] [] [] [] []]; reflexivity.
  - simpl in H. apply andb_prop in H as [_ H]. apply andb_prop in H as [Hp _].
    assert (E : forall x : ascii, is_digit x = false -> (p =? x)%char = false).
    { intros x Hx. destruct (Ascii.eqb_spec p x) as [->|]; congruence. }
    rewrite !E by reflexivity. simpl.
    destruct a as [[] [] [] [] [] [] [] []]; reflexivity.
Qed.

(** On an optional sign followed by digits, [Number] and [parseInt] read the
    same number. *)
Lemma signed_digits_numbers (s : string) (neg : bool) (r : list ascii) :
  split_sign (list_ascii_of_string s) = (neg, r) ->
  r <> [] -> forallb is_digit r = true ->
  StringToNumber s = nearest neg (digits_val r) 1
  /\ parseInt s = nearest neg (digits_val r) 1.
Proof.
  intros Hs Hr Hd. set (l := list_ascii_of_string s) in *.
  destruct r as [|d r']; [congruence|].
  assert (Hd0 : is_digit d = true) by (simpl in Hd; now apply andb_prop in Hd).
  assert (Hfirst : match l with [] => True | c :: _ => is_space c = false end).
  { unfold split_sign in Hs.
    destruct l as [|c t]; [exact I|].
    destruct (Ascii.eqb_spec c "+"%char) as [->|Hp]; [reflexivity|].
    destruct (Ascii.eqb_spec c "-"%char) as [->|Hm]; [reflexivity|].
    assert (E : (false, c :: t) = (neg, d :: r')).
    { rewrite <- Hs. destruct c as [[] [] [] [] [] [] [] []]; try reflexivity; congruence. }
    inversion E; subst. now apply digit_not_space. }
  assert (Hl : exists pre : list ascii, l = (pre ++ d :: r')%list).
  { unfold split_sign in Hs.
    destruct l as [|c t]; [inversion Hs|].
    destruct c as [[] [] [] [] [] [] [] []];
      inversion Hs; subst; first [now exists [] | now eexists [_]]. }
  assert (Hlast : match rev l with [] => True | c :: _ => is_space c = false end).
  { destruct Hl as [pre ->]. rewrite rev_app_distr.
    pose proof (forallb_rev_head is_digit (d :: r') Hd) as H.
    destruct (rev (d :: r')) as [|c t] eqn:E.
    - apply (f_equal (@List.length ascii)) in E. rewrite length_rev in E. discriminate.
    - simpl. now apply digit_not_space. }
  split.
  - unfold StringToNumber. fold l. rewrite (trim_list_id l Hfirst Hlast).
    assert (Hnil : is_nil l = false).
    { destruct Hl as [pre ->]. now destruct pre. }
    rewrite Hnil.
    assert (Hnd : parse_nondecimal l = None).
    { destruct Hl as [pre Hl]. unfold split_sign in Hs.
      destruct l as [|c t]; [reflexivity|].
      destruct (Ascii.eqb_spec c "+"%char) as [->|Hp]; [reflexivity|].
      destruct (Ascii.eqb_spec c "-"%char) as [->|Hm]; [reflexivity|].
      assert (E : (false, c :: t) = (neg, d :: r')).
      { rewrite <- Hs. destruct c as [[] [] [] [] [] [] [] []]; try reflexivity; congruence. }
      inversion E; subst. now apply parse_nondecimal_digits. }
    rewrite Hnd. unfold parse_decimal. rewrite Hs.
    rewrite (list_ascii_eqb_digit_Infinity d r' Hd0).
    unfold parse_unsigned. rewrite (span_digits_all _ Hd).
    simpl is_nil. cbv iota. rewrite app_nil_r. simpl List.length.
    unfold decimal_value. simpl. rewrite Z.mul_1_r. reflexivity.
  - unfold parseInt. fold l.
    assert (Hdrop : drop_spaces l = l).
    { destruct l as [|c t]; [reflexivity|]. now apply drop_spaces_head. }
    rewrite Hdrop, Hs, (span_digits_all _ Hd). reflexivity.
Qed.

(** ** Comparisons and the limit *)

Lemma of_Z_1 : of_Z 1 = S754_finite false 4503599627370496 (-52).
Proof. vm_compute. reflexivity. Qed.

Lemma of_Z_50 : of_Z 50 = S754_finite false 7036874417766400 (-47).
Proof. vm_compute. reflexivity. Qed.

Lemma of_Z_10 : of_Z 10 = S754_finite false 5629499534213120 (-49).
Proof. vm_compute. reflexivity. Qed.

Lemma between_1_and_50 (x : number) :
  leb (of_Z 1) x = true -> leb x (of_Z 50) = true ->
  is_finite x = true /\ leb x (S754_zero false) = false.
Proof.
  rewrite of_Z_1, of_Z_50. unfold leb, SFleb, SFcompare.
  destruct x as [s|s| |s m e]; try destruct s; cbv beta iota;
    try discriminate; intros _ _; split; reflexivity.
Qed.

Lemma ltb_leb (x y : number) : ltb x y = true -> leb x y = true.
Proof.
  unfold ltb, leb, SFltb, SFleb.
  destruct (SFcompare x y) as [[]|]; congruence.
Qed.

(** [Math.min(x, 50)] is at most 50 unless [x] is NaN. *)
Lemma Math_min_50 (x : number) :
  is_nan x = false -> leb (Math_min x (of_Z 50)) (of_Z 50) = true.
Proof.
  intros Hx. unfold Math_min. rewrite Hx, of_Z_50.
  cbv beta iota delta [is_nan orb].
  destruct (ltb x (S754_finite false 7036874417766400 (-47))) eqn:E1;
    [now apply ltb_leb|].
  destruct (ltb (S754_finite false 7036874417766400 (-47)) x) eqn:E2;
    [vm_compute; reflexivity|].
  destruct x as [[]|s| |s m e]; vm_compute; reflexivity.
Qed.

Lemma finite_not_nan (x : number) : is_finite x = true -> is_nan x = false.
Proof. destruct x; simpl; congruence. Qed.

(** Between 1 and 50, [Math.min(x, 50)] is [x] itself. *)
Lemma Math_min_below (x : number) :
  leb (of_Z 1) x = true -> leb x (of_Z 50) = true ->
  leb (Math_min x (of_Z 50)) (of_Z 50) = true /\ is_finite (Math_min x (of_Z 50)) = true.
Proof.
  intros H1 H2. destruct (between_1_and_50 x H1 H2) as [Hf _].
  split; [apply Math_min_50; now apply finite_not_nan|].
  unfold Math_min. rewrite (finite_not_nan x Hf), of_Z_50.
  cbv beta iota delta [is_nan orb].
  destruct (ltb x (S754_finite false 7036874417766400 (-47))); [exact Hf|].
  destruct (ltb (S754_finite false 7036874417766400 (-47)) x); [reflexivity|].
  destruct x as [[]|s| |s m e]; reflexivity.
Qed.

(** A limit that passes [isInt({ min: 1, max: 50 })] is read by [parseInt]
    as the same number, so the handler accepts it. *)
Lemma isInt_parseInt (s : string) :
  isInt 1 50 s = true ->
  parseInt s = StringToNumber s
  /\ leb (of_Z 1) (parseInt s) = true /\ leb (parseInt s) (of_Z 50) = true.
Proof.
  unfold isInt. destruct (split_sign (list_ascii_of_string s)) as [neg r] eqn:Hs.
  intros H. apply andb_prop in H as [H Hhi]. apply andb_prop in H as [H Hlo].
  apply andb_prop in H as [Hnil Hd].
  assert (Hr : r <> []) by (destruct r; [discriminate Hnil|congruence]).
  destruct (signed_digits_numbers s neg r Hs Hr Hd) as [E1 E2].
  rewrite E2, <- E1. auto.
Qed.

Lemma parse_limit_default (req : Request) :
  query_limit req = None -> parse_limit req = Return (of_Z 10).
Proof.
  intros H. unfold parse_limit. rewrite H. vm_compute. reflexivity.
Qed.

Lemma parse_limit_valid (req : Request) :
  limit_errors req = [] ->
  exists limit, parse_limit req = Return limit
                /\ leb limit (of_Z 50) = true /\ is_finite limit = true.
Proof.
  unfold limit_errors. destruct (query_limit req) as [s|] eqn:Hq.
  - destruct (isInt 1 50 s) eqn:Hi; [intros _|discriminate].
    destruct (isInt_parseInt s Hi) as (_ & Hlo & Hhi).
    destruct (between_1_and_50 _ Hlo Hhi) as [Hf Hpos].
    exists (Math_min (parseInt s) (of_Z 50)).
    unfold parse_limit. rewrite Hq, Hf, Hpos. simpl.
    split; [reflexivity|]. now apply Math_min_below.
  - intros _. exists (of_Z 10). rewrite (parse_limit_default req Hq).
    split; [reflexivity|]. vm_compute. auto.
Qed.

(** Whatever limit the handler accepts is at most 50. *)
Lemma parse_limit_le_50 (req : Request) (limit : number) :
  parse_limit req = Return limit -> leb limit (of_Z 50) = true.
Proof.
  unfold parse_limit.
  destruct (is_finite (parseInt _)) eqn:Hf; simpl; [|discriminate].
  destruct (leb (parseInt _) _); [discriminate|].
  intros E. inversion E. apply Math_min_50. now apply finite_not_nan.
Qed.

(** ** The handler, stage by stage *)

(** A request that reaches the upstream call: it passes the validation
    chains, the credential is configured, and neither the limit nor the food
    type is refused; [query] and [limit] are what the handler then uses. *)
Definition accepted (usdaApiKey : option string) (req : Request)
    (key query : string) (limit : number) : Prop :=
  validateFoodsQuery req = []
  /\ usdaApiKey = Some key /\ key <> ""
  /\ query = trim (sanitized_type req)
  /\ parse_limit req = Return limit
  /\ check_food_type query = Return tt.

(** The response to a successful upstream status. *)
Definition success_response (query : string) (limit : number) (json : JsonResult)
  : HttpResponse :=
  try_catch
    (bind (parse_body json) (fun data =>
       Return {|
         status := 200;
         body := FoodsBody {|
           query := query;
           limit := limit;
           count := Z.of_nat (List.length (normalized (foods_of data)));
           foods := normalized (foods_of data)
         |}
       |}))
    error_response.

Lemma foods_try_validated (key : string) (upstream : Upstream) (req : Request) :
  validateFoodsQuery req = [] -> key <> "" ->
  foods_try (Some key) upstream req =
  bind (parse_limit req) (fun limit =>
  bind (check_food_type (trim (sanitized_type req))) (fun _ =>
    match upstream key (trim (sanitized_type req)) (NumberToString limit) with
    | FetchThrows error => Throw (network_error error)
    | Response status json =>
        if negb (response_ok status) then Throw (upstream_error status json)
        else
          bind (parse_body json) (fun data =>
            Return {|
              status := 200;
              body := FoodsBody {|
                query := trim (sanitized_type req);
                limit := limit;
                count := Z.of_nat (List.length (normalized (foods_of data)));
                foods := normalized (foods_of data)
              |}
            |})
    end)).
Proof.
  intros Hv Hk. unfold foods_try. rewrite Hv.
  destruct key as [|a k]; [congruence|]. reflexivity.
Qed.

Lemma get_foods_accepted (usdaApiKey : option string) (upstream : Upstream)
    (req : Request) (key query : string) (limit : number) :
  accepted usdaApiKey req key query limit ->
  get_foods usdaApiKey upstream req =
  match upstream key query (NumberToString limit) with
  | FetchThrows error => error_response (network_error error)
  | Response status json =>
      if response_ok status then success_response query limit json
      else error_response (upstream_error status json)
  end.
Proof.
  intros (Hv & -> & Hk & -> & Hl & Hc).
  unfold get_foods. rewrite (foods_try_validated key upstream req Hv Hk).
  rewrite Hl. simpl bind. rewrite Hc. simpl bind.
  destruct (upstream _ _ _) as [e|s j]; [reflexivity|].
  destruct (response_ok s); reflexivity.
Qed.

(** A request is refused before the upstream call, by the validation
    chains, for the missing credential, or for its food type. *)
Lemma validated_limit_accepted (req : Request) :
  validateFoodsQuery req = [] -> exists limit, parse_limit req = Return limit.
Proof.
  unfold validateFoodsQuery. intros H. apply app_eq_nil in H as [_ H].
  destruct (parse_limit_valid req H) as (limit & E & _). now exists limit.
Qed.

(** The [type] tag of an error response. *)
Definition error_type (r : HttpResponse) : option string :=
  match body r with
  | ErrorBody e => Some (type e)
  | FoodsBody _ => None
  end.

Definition apple_request : Request :=
  {| query_type := Some "apple"; query_limit := None |}.

Lemma apple_accepted :
  accepted (Some "key") apple_request "key" "apple" (of_Z 10).
Proof.
  unfold accepted. repeat split; try reflexivity. discriminate.
Qed.

(** ** Upstream errors *)



(** ** The parsed body *)

Lemma array_body_is_normalized :
  let upstream : Upstream := fun _ _ _ => Response 200 (JsonValue (Arr [])) in
  get_foods (Some "key") upstream apple_request =
  {| status := 200;
     body := FoodsBody {| query := "apple"; limit := of_Z 10; count := 0; foods := [] |} |}.
Proof. vm_compute. reflexivity. Qed.

(** C8, as the code has it: after a success status, a body that does not
    parse, or that parses to [null], a boolean, a number or a string, is
    answered with a ParsingError and status 422; a body that parses to an
    object or to an array is normalized and answered with status 200. *)
Theorem parsed_body_object_or_array
    (usdaApiKey : option string) (upstream : Upstream) (req : Request)
    (key query : string) (limit : number) (s : Z) (json : JsonResult) :
  accepted usdaApiKey req key query limit ->
  upstream key query (NumberToString limit) = Response s json ->
  response_ok s = true ->
  let r := get_foods usdaApiKey upstream req in
  match json with
  | JsonValue (Obj _ as data) | JsonValue (Arr _ as data) =>
      r = {| status := 200;
             body := FoodsBody {|
               query := query;
               limit := limit;
               count := Z.of_nat (List.length (normalized (foods_of data)));
               foods := normalized (foods_of data)
             |} |}
  | _ => status r = 422 /\ error_type r = Some "ParsingError"
  end.
Proof.
  intros Ha Hu Hs r. subst r.
  rewrite (get_foods_accepted usdaApiKey upstream req key query limit Ha), Hu, Hs.
  destruct json as [data|e]; [|split; reflexivity].
  destruct data as [| |b|x|str|l|fs]; try (split; reflexivity); try reflexivity.
  - destruct b; split; reflexivity.
  - destruct x as [z|z| |z m e]; split; reflexivity.
  - destruct str; split; reflexivity.
Qed.

Lemma parsed_body_object_or_array_witness :
  let upstream : Upstream := fun _ _ _ => Response 200 (JsonValue (Str "not an object")) in
  let r := get_foods (Some "key") upstream apple_request in
  status r = 422 /\ error_type r = Some "ParsingError".
Proof.
  intros upstream r.
  exact (parsed_body_object_or_array (Some "key") upstream apple_request "key" "apple"
           (of_Z 10) 200 (JsonValue (Str "not an object")) apple_accepted eq_refl eq_refl).
Defined.

(** ** Food types *)

Definition empty_search : Upstream :=
  fun _ _ _ => Response 200 (JsonValue (Obj [("foods", Arr [])])).

(** C6, the input on which the claim as stated fails: "- -" passes the
    validation chain and holds no word character, yet it is searched. *)
Lemma hyphens_and_space_accepted :
  let req := {| query_type := Some "- -"; query_limit := None |} in
  validateFoodsQuery req = []
  /\ Forall (fun c => is_word c = false) (list_ascii_of_string "- -")
  /\ get_foods (Some "key") empty_search req =
     {| status := 200;
        body := FoodsBody {| query := "- -"; limit := of_Z 10; count := 0; foods := [] |} |}.
Proof.
  split; [reflexivity|]. split; [repeat constructor|]. vm_compute. reflexivity.
Qed.

Lemma not_empty_string (s : string) : s <> "" -> is_empty s = false.
Proof. destruct s; [congruence|reflexivity]. Qed.

Lemma check_food_type_throws (query : string) :
  (str_length query <? 2) = true
  \/ existsb (fun pattern => pattern query) problematicPatterns = true ->
  exists message, check_food_type query = Throw (FoodTypeError message).
Proof.
  intros H. unfold check_food_type.
  destruct (is_empty query); [eexists; reflexivity|].
  destruct (str_length query <? 2); [eexists; reflexivity|].
  destruct H as [H|H]; [discriminate|]. rewrite H. eexists; reflexivity.
Qed.

(** C6, as the code has it: once the validation chains pass and the
    credential is configured, a food type is refused with a FoodTypeError
    and status 400 when it is shorter than 2 characters, when it is all
    digits, when every character of it is neither a word character nor
    white space, or when it is one of test, debug, admin and system in any
    letter case. *)
Theorem problematic_food_type_rejected
    (usdaApiKey : option string) (upstream : Upstream) (req : Request) (key : string) :
  validateFoodsQuery req = [] ->
  usdaApiKey = Some key -> key <> "" ->
  let query := trim (sanitized_type req) in
  let chars := list_ascii_of_string query in
  (str_length query < 2
   \/ (query <> "" /\ Forall (fun c => is_digit c = true) chars)
   \/ (query <> "" /\ Forall (fun c => is_word c = false /\ is_space c = false) chars)
   \/ In (toLowerCase query) ["test"; "debug"; "admin"; "system"]) ->
  let r := get_foods usdaApiKey upstream req in
  status r = 400 /\ error_type r = Some "FoodTypeError".
Proof.
  intros Hv -> Hk query chars Hq r. subst r.
  destruct (validated_limit_accepted req Hv) as [limit Hl].
  assert (Ht : exists message, check_food_type query = Throw (FoodTypeError message)).
  { apply check_food_type_throws.
    destruct Hq as [Hq|[[Hne Hq]|[[Hne Hq]|Hq]]].
    - left. now apply Z.ltb_lt.
    - right. unfold problematicPatterns, only_numbers. simpl.
      rewrite (not_empty_string query Hne). simpl.
      replace (forallb is_digit (list_ascii_of_string query)) with true; [reflexivity|].
      symmetry. apply forallb_forall. now apply Forall_forall.
    - right. unfold problematicPatterns, only_special_characters. simpl.
      rewrite (not_empty_string query Hne). simpl.
      assert (E : forallb (fun c => negb (is_word c) && negb (is_space c))
                    (list_ascii_of_string query) = true).
      { apply forallb_forall. intros c Hc.
        rewrite Forall_forall in Hq. destruct (Hq c Hc) as [-> ->]. reflexivity. }
      rewrite E. now rewrite orb_true_r.
    - right. unfold problematicPatterns. simpl.
      replace (reserved_word query) with true; [now rewrite !orb_true_r|].
      symmetry. unfold reserved_word. apply existsb_exists.
      exists (toLowerCase query). split; [exact Hq|apply String.eqb_refl]. }
  destruct Ht as [message Ht].
  unfold get_foods. rewrite (foods_try_validated key upstream req Hv Hk), Hl.
  simpl bind. fold query. rewrite Ht. split; reflexivity.
Qed.

Lemma problematic_food_type_rejected_witness :
  let r := get_foods (Some "key") empty_search
             {| query_type := Some "123"; query_limit := Some "5" |} in
  status r = 400 /\ error_type r = Some "FoodTypeError".
Proof.
  apply (problematic_food_type_rejected (Some "key") empty_search _ "key"); try reflexivity.
  - discriminate.
  - right; left. split; [discriminate|repeat constructor].
Defined.

(** The two refusals the specification lists: [type=123] and [type=a]. *)
Example food_type_123_and_a :
  let r1 := get_foods (Some "key") empty_search
              {| query_type := Some "123"; query_limit := None |} in
  let r2 := get_foods (Some "key") empty_search
              {| query_type := Some "a"; query_limit := None |} in
  (status r1, error_type r1) = (400, Some "FoodTypeError")
  /\ (status r2, error_type r2) = (400, Some "FoodTypeError").
Proof. split; vm_compute; reflexivity. Qed.

(** ** The nutrient locator *)

(** A record whose code and name can be read: none of the reads and string
    conversions of [findNutrient] throws on it. *)
Definition readable (n : value) : Prop :=
  exists number name,
    nutrient_number n = Return number /\ nutrient_name n = Return name.

(** A record that [idsOrNames] selects: its trimmed code is one of the
    identifiers, or its trimmed name is one of them up to letter case. *)
Definition record_matches (idsOrNames : list string) (n : value) : Prop :=
  exists number name,
    nutrient_number n = Return number /\ nutrient_name n = Return name
    /\ Exists (fun key => key = number \/ toLowerCase key = toLowerCase name)
         idsOrNames.

Lemma some_key_matches_spec (idsOrNames : list string) (number name : string) :
  some_key_matches idsOrNames number name = true
  <-> Exists (fun key => key = number \/ toLowerCase key = toLowerCase name)
        idsOrNames.
Proof.
  unfold some_key_matches. rewrite existsb_exists, Exists_exists.
  split; intros (key & Hin & H); exists key; (split; [exact Hin|]).
  - apply orb_prop in H as [H|H]; apply String.eqb_eq in H; auto.
  - apply orb_true_iff. destruct H as [H|H]; [left|right]; now apply String.eqb_eq.
Qed.

Lemma record_matches_readable (idsOrNames : list string) (n : value) :
  record_matches idsOrNames n -> readable n.
Proof. intros (a & b & Ha & Hb & _). now exists a, b. Qed.

Lemma findNutrient_loop_cons (n : value) (rest : list value)
    (idsOrNames : list string) (number name : string) :
  nutrient_number n = Return number -> nutrient_name n = Return name ->
  findNutrient_loop (n :: rest) idsOrNames =
  if some_key_matches idsOrNames number name then Return (Some n)
  else findNutrient_loop rest idsOrNames.
Proof. intros Ha Hb. simpl. rewrite Ha. simpl. rewrite Hb. reflexivity. Qed.

Lemma findNutrient_loop_unreadable (n : value) (rest : list value)
    (idsOrNames : list string) (r : option value) :
  findNutrient_loop (n :: rest) idsOrNames = Return r -> readable n.
Proof.
  simpl. destruct (nutrient_number n) as [a|e] eqn:Ha; [|discriminate].
  simpl. destruct (nutrient_name n) as [b|e] eqn:Hb; [|discriminate].
  intros _. now exists a, b.
Qed.

(** The loop returns [n] exactly when [n] is the first record that matches
    and every record before it could be read. *)
Lemma findNutrient_loop_Some (nutrients : list value) (idsOrNames : list string)
    (n : value) :
  findNutrient_loop nutrients idsOrNames = Return (Some n)
  <-> exists l1 l2,
        nutrients = (l1 ++ n :: l2)%list
        /\ record_matches idsOrNames n
        /\ Forall (fun x => readable x /\ ~ record_matches idsOrNames x) l1.
Proof.
  induction nutrients as [|x rest IH].
  - split; [discriminate|]. intros (l1 & l2 & E & _). now destruct l1.
  - split.
    + intros H. pose proof (findNutrient_loop_unreadable _ _ _ _ H) as (a & b & Ha & Hb).
      rewrite (findNutrient_loop_cons _ rest idsOrNames _ _ Ha Hb) in H.
      destruct (some_key_matches idsOrNames a b) eqn:Hm.
      * inversion H; subst. exists [], rest. split; [reflexivity|]. split; [|constructor].
        exists a, b. repeat split; try assumption. now apply some_key_matches_spec.
      * apply IH in H as (l1 & l2 & -> & Hn & Hl).
        exists (x :: l1), l2. split; [reflexivity|]. split; [exact Hn|].
        constructor; [|exact Hl]. split; [now exists a, b|].
        intros (a' & b' & Ha' & Hb' & He).
        rewrite Ha in Ha'. rewrite Hb in Hb'. inversion Ha'; inversion Hb'; subst.
        apply some_key_matches_spec in He. congruence.
    + intros (l1 & l2 & E & Hn & Hl). destruct l1 as [|y l1].
      * simpl in E. inversion E; subst. destruct Hn as (a & b & Ha & Hb & He).
        rewrite (findNutrient_loop_cons _ _ _ _ _ Ha Hb).
        apply some_key_matches_spec in He. now rewrite He.
      * simpl in E. inversion E; subst. inversion Hl as [|? ? [(a & b & Ha & Hb) Hy] Hl']; subst.
        rewrite (findNutrient_loop_cons _ _ _ _ _ Ha Hb).
        destruct (some_key_matches idsOrNames a b) eqn:Hm.
        -- exfalso. apply Hy. exists a, b. repeat split; try assumption.
           now apply some_key_matches_spec.
        -- apply IH. now exists l1, l2.
Qed.

Lemma findNutrient_loop_None (nutrients : list value) (idsOrNames : list string) :
  findNutrient_loop nutrients idsOrNames = Return None
  <-> Forall (fun x => readable x /\ ~ record_matches idsOrNames x) nutrients.
Proof.
  induction nutrients as [|x rest IH].
  - split; [constructor|reflexivity].
  - split.
    + intros H. pose proof (findNutrient_loop_unreadable _ _ _ _ H) as (a & b & Ha & Hb).
      rewrite (findNutrient_loop_cons _ rest idsOrNames _ _ Ha Hb) in H.
      destruct (some_key_matches idsOrNames a b) eqn:Hm; [discriminate|].
      constructor; [|now apply IH]. split; [now exists a, b|].
      intros (a' & b' & Ha' & Hb' & He).
      rewrite Ha in Ha'. rewrite Hb in Hb'. inversion Ha'; inversion Hb'; subst.
      apply some_key_matches_spec in He. congruence.
    + intros Hl. inversion Hl as [|? ? [(a & b & Ha & Hb) Hx] Hl']; subst.
      rewrite (findNutrient_loop_cons _ _ _ _ _ Ha Hb).
      destruct (some_key_matches idsOrNames a b) eqn:Hm.
      * exfalso. apply Hx. exists a, b. repeat split; try assumption.
        now apply some_key_matches_spec.
      * now apply IH.
Qed.

Lemma findNutrient_Some (nutrients : list value) (idsOrNames : list string) (n : value) :
  findNutrient nutrients idsOrNames = Some n
  <-> findNutrient_loop nutrients idsOrNames = Return (Some n).
Proof.
  unfold findNutrient, try_catch.
  destruct (findNutrient_loop nutrients idsOrNames) as [r|e]; split; congruence.
Qed.

(** What the locator returns is an element of the list. *)
Lemma findNutrient_In (nutrients : list value) (idsOrNames : list string) (n : value) :
  findNutrient nutrients idsOrNames = Some n -> In n nutrients.
Proof.
  intros H. apply findNutrient_Some, findNutrient_loop_Some in H as (l1 & l2 & -> & _).
  apply in_or_app. right. now left.
Qed.

(** Without a matching record the locator returns [null], whether or not the
    records can be read. *)
Lemma findNutrient_no_match (nutrients : list value) (idsOrNames : list string) :
  Forall (fun x => ~ record_matches idsOrNames x) nutrients ->
  findNutrient nutrients idsOrNames = None.
Proof.
  intros Hall. destruct (findNutrient nutrients idsOrNames) as [n|] eqn:E; [|reflexivity].
  apply findNutrient_Some, findNutrient_loop_Some in E as (l1 & l2 & -> & Hn & _).
  apply Forall_app in Hall as [_ Hall]. inversion Hall; subst. contradiction.
Qed.

(** The code and name of a record that holds them as strings. *)
Lemma nutrient_number_string (fs : list (string * value)) (c : string) :
  lookup "nutrientNumber" fs = Str c -> nutrient_number (Obj fs) = Return (trim c).
Proof. intros H. unfold nutrient_number. simpl. rewrite H. reflexivity. Qed.

Lemma nutrient_name_string (fs : list (string * value)) (c : string) :
  lookup "nutrientName" fs = Str c -> nutrient_name (Obj fs) = Return (trim c).
Proof. intros H. unfold nutrient_name. simpl. rewrite H. reflexivity. Qed.

(** C3: on a list of records that can be read, the locator returns the
    first record, in list order, whose trimmed code equals one of the
    identifiers or whose trimmed name equals one of them up to letter case,
    and [null] when no record matches.  A record with code "1003" and name
    "Protein" is found by either identifier. *)
Theorem findNutrient_first_match (nutrients : list value) (idsOrNames : list string) :
  Forall readable nutrients ->
  (forall n,
      findNutrient nutrients idsOrNames = Some n
      <-> exists l1 l2,
            nutrients = (l1 ++ n :: l2)%list
            /\ record_matches idsOrNames n
            /\ Forall (fun x => ~ record_matches idsOrNames x) l1)
  /\ (findNutrient nutrients idsOrNames = None
      <-> Forall (fun x => ~ record_matches idsOrNames x) nutrients)
  /\ (forall fs c nm,
         lookup "nutrientNumber" fs = Str c ->
         lookup "nutrientName" fs = Str nm ->
         (record_matches idsOrNames (Obj fs)
          <-> Exists (fun key => key = trim c
                                 \/ toLowerCase key = toLowerCase (trim nm))
                idsOrNames))
  /\ (forall fs rest,
         lookup "nutrientNumber" fs = Str "1003" ->
         lookup "nutrientName" fs = Str "Protein" ->
         findNutrient (Obj fs :: rest) ["1003"] = Some (Obj fs)
         /\ findNutrient (Obj fs :: rest) ["Protein"] = Some (Obj fs)).
Proof.
  intros Hr. repeat split.
  - intros H. apply findNutrient_Some, findNutrient_loop_Some in H
      as (l1 & l2 & E & Hn & Hl).
    exists l1, l2. repeat split; try assumption.
    eapply Forall_impl; [|exact Hl]. now intros x [_ Hx].
  - intros (l1 & l2 & E & Hn & Hl).
    apply findNutrient_Some, findNutrient_loop_Some. exists l1, l2.
    repeat split; try assumption. subst nutrients.
    apply Forall_app in Hr as [Hr _].
    rewrite Forall_forall in *. intros x Hx. split; auto.
  - intros H. unfold findNutrient, try_catch in H.
    destruct (findNutrient_loop nutrients idsOrNames) as [[n|]|e] eqn:E.
    + discriminate.
    + apply findNutrient_loop_None in E. eapply Forall_impl; [|exact E]. now intros x [_ Hx].
    + clear H. induction Hr as [|x rest (a & b & Ha & Hb) Hrest IH]; [discriminate|].
      rewrite (findNutrient_loop_cons _ _ _ _ _ Ha Hb) in E.
      destruct (some_key_matches idsOrNames a b); [discriminate|].
      exfalso. clear -E Hrest.
      induction Hrest as [|y rest' (a & b & Ha & Hb) Hrest IH]; [discriminate|].
      rewrite (findNutrient_loop_cons _ _ _ _ _ Ha Hb) in E.
      destruct (some_key_matches idsOrNames a b); [discriminate|]. now apply IH.
  - apply findNutrient_no_match.
  - intros (a & b & Ha & Hb & He).
    rewrite (nutrient_number_string fs c H) in Ha.
    rewrite (nutrient_name_string fs nm H0) in Hb.
    inversion Ha; inversion Hb; subst. exact He.
  - intros He. exists (trim c), (trim nm).
    repeat split; [now apply nutrient_number_string|now apply nutrient_name_string|exact He].
  - apply findNutrient_Some.
    rewrite (findNutrient_loop_cons _ _ _ _ _ (nutrient_number_string fs _ H)
               (nutrient_name_string fs _ H0)).
    reflexivity.
  - apply findNutrient_Some.
    rewrite (findNutrient_loop_cons _ _ _ _ _ (nutrient_number_string fs _ H)
               (nutrient_name_string fs _ H0)).
    reflexivity.
Qed.

Definition fat_record : value :=
  Obj [("nutrientNumber", Str "1004"); ("nutrientName", Str "Total lipid (fat)");
       ("value", Num (of_Z 9)); ("unitName", Str "G")].

Definition protein_record : value :=
  Obj [("nutrientNumber", Str " 1003 "); ("nutrientName", Str "PROTEIN");
       ("value", Num (of_Z 500)); ("unitName", Str "MG")].

Lemma findNutrient_first_match_witness :
  findNutrient [fat_record; protein_record] protein_ids = Some protein_record.
Proof.
  assert (Hr : Forall readable [fat_record; protein_record]).
  { constructor; [|constructor; [|constructor]].
    - exists "1004", "Total lipid (fat)". split; vm_compute; reflexivity.
    - exists "1003", "PROTEIN". split; vm_compute; reflexivity. }
  destruct (findNutrient_first_match [fat_record; protein_record] protein_ids Hr)
    as (H & _).
  apply H. exists [fat_record], []. split; [reflexivity|]. split.
  - exists "1003", "PROTEIN".
    split; [vm_compute; reflexivity|]. split; [vm_compute; reflexivity|].
    left. now left.
  - constructor; [|constructor].
    intros (a & b & Ha & Hb & He).
    vm_compute in Ha, Hb. inversion Ha; inversion Hb; subst.
    apply some_key_matches_spec in He. vm_compute in He. discriminate He.
Defined.

(** * Further properties of the handler *)

(** ** Which error a request gets *)

Lemma get_foods_invalid (usdaApiKey : option string) (upstream : Upstream) (req : Request) :
  validateFoodsQuery req <> [] ->
  get_foods usdaApiKey upstream req =
  error_response
    (ValidationError ("Invalid request parameters: " ++ join ", " (validateFoodsQuery req))).
Proof.
  intros H. unfold get_foods, foods_try.
  destruct (validateFoodsQuery req) as [|e l]; [congruence|reflexivity].
Qed.

Lemma get_foods_unconfigured (usdaApiKey : option string) (upstream : Upstream)
    (req : Request) :
  validateFoodsQuery req = [] ->
  usdaApiKey = None \/ usdaApiKey = Some "" ->
  get_foods usdaApiKey upstream req =
  error_response
    (ConfigurationError
       "Server misconfiguration: USDA API key is not configured. Please contact the administrator.").
Proof.
  intros Hv Hk. unfold get_foods, foods_try. rewrite Hv.
  destruct Hk as [->| ->]; reflexivity.
Qed.

(** A validated request with a configured credential is either refused for
    its food type or accepted. *)
Lemma validated_cases (key : string) (req : Request) :
  validateFoodsQuery req = [] -> key <> "" ->
  (exists message,
      check_food_type (trim (sanitized_type req)) = Throw (FoodTypeError message))
  \/ (exists limit, accepted (Some key) req key (trim (sanitized_type req)) limit).
Proof.
  intros Hv Hk. destruct (validated_limit_accepted req Hv) as [limit Hl].
  destruct (check_food_type (trim (sanitized_type req))) as [[]|e] eqn:Hc.
  - right. exists limit. unfold accepted. auto 7.
  - left. unfold check_food_type in Hc.
    destruct (is_empty _); [inversion Hc; eauto|].
    destruct (_ <? 2); [inversion Hc; eauto|].
    destruct (existsb _ _); [inversion Hc; eauto|discriminate].
Qed.

Lemma get_foods_food_type (key : string) (upstream : Upstream) (req : Request)
    (message : string) :
  validateFoodsQuery req = [] -> key <> "" ->
  check_food_type (trim (sanitized_type req)) = Throw (FoodTypeError message) ->
  get_foods (Some key) upstream req = error_response (FoodTypeError message).
Proof.
  intros Hv Hk Hc. destruct (validated_limit_accepted req Hv) as [limit Hl].
  unfold get_foods. rewrite (foods_try_validated key upstream req Hv Hk), Hl.
  simpl bind. rewrite Hc. reflexivity.
Qed.

Lemma configured_cases (usdaApiKey : option string) :
  (usdaApiKey = None \/ usdaApiKey = Some "")
  \/ (exists key, usdaApiKey = Some key /\ key <> "").
Proof.
  destruct usdaApiKey as [[|a k]|]; auto.
  right. eexists. split; [reflexivity|discriminate].
Qed.

Lemma success_response_cases (query : string) (limit : number) (json : JsonResult) :
  (status (success_response query limit json) = 422
   /\ error_type (success_response query limit json) = Some "ParsingError")
  \/ (exists f, success_response query limit json = {| status := 200; body := FoodsBody f |}
                /\ FoodApi.query f = query /\ FoodApi.limit f = limit).
Proof.
  unfold success_response. destruct json as [data|e]; [|left; split; reflexivity].
  unfold parse_body.
  destruct (negb (truthy data) || negb (typeof_object data)).
  - left; split; reflexivity.
  - right. eexists. split; [reflexivity|]. split; reflexivity.
Qed.


(** ** Trimming *)









(** ** The stages of the handler *)

(** The response once the upstream call has returned or thrown. *)
Definition respond (query : string) (limit : number) (result : FetchResult)
  : HttpResponse :=
  match result with
  | FetchThrows error => error_response (network_error error)
  | Response status json =>
      if response_ok status then success_response query limit json
      else error_response (upstream_error status json)
  end.

(** The ways a request is answered, in the order the handler checks. *)
Inductive outcome (usdaApiKey : option string) (upstream : Upstream) (req : Request)
  : HttpResponse -> Prop :=
| outcome_invalid :
    validateFoodsQuery req <> [] ->
    outcome usdaApiKey upstream req
      (error_response
         (ValidationError
            ("Invalid request parameters: " ++ join ", " (validateFoodsQuery req))))
| outcome_unconfigured :
    validateFoodsQuery req = [] ->
    usdaApiKey = None \/ usdaApiKey = Some "" ->
    outcome usdaApiKey upstream req
      (error_response
         (ConfigurationError
            "Server misconfiguration: USDA API key is not configured. Please contact the administrator."))
| outcome_food_type (key message : string) :
    validateFoodsQuery req = [] ->
    usdaApiKey = Some key -> key <> "" ->
    check_food_type (trim (sanitized_type req)) = Throw (FoodTypeError message) ->
    outcome usdaApiKey upstream req (error_response (FoodTypeError message))
| outcome_called (key : string) (limit : number) :
    accepted usdaApiKey req key (trim (sanitized_type req)) limit ->
    outcome usdaApiKey upstream req
      (respond (trim (sanitized_type req)) limit
         (upstream key (trim (sanitized_type req)) (NumberToString limit))).

Lemma get_foods_outcome (usdaApiKey : option string) (upstream : Upstream)
    (req : Request) :
  outcome usdaApiKey upstream req (get_foods usdaApiKey upstream req).
Proof.
  destruct (list_eq_dec string_dec (validateFoodsQuery req) []) as [Hv|Hv].
  2:{ rewrite (get_foods_invalid usdaApiKey upstream req Hv). now constructor. }
  destruct (configured_cases usdaApiKey) as [Hk|(key & -> & Hk)].
  { rewrite (get_foods_unconfigured usdaApiKey upstream req Hv Hk). now constructor. }
  destruct (validated_cases key req Hv Hk) as [[message Hc]|[limit Ha]].
  - rewrite (get_foods_food_type key upstream req message Hv Hk Hc).
    now apply outcome_food_type with (key := key).
  - rewrite (get_foods_accepted (Some key) upstream req key _ limit Ha).
    now apply outcome_called.
Qed.

Lemma respond_type (query : string) (limit : number) (result : FetchResult) :
  error_type (respond query limit result) <> Some "ValidationError"
  /\ error_type (respond query limit result) <> Some "ConfigurationError"
  /\ error_type (respond query limit result) <> Some "FoodTypeError".
Proof.
  destruct result as [e|s json]; simpl.
  - destruct e as [name message|]; simpl.
    + destruct (String.eqb name "AbortError");
        [|destruct (String.eqb name "TypeError" && includes message "fetch")];
        repeat split; discriminate.
    + repeat split; discriminate.
  - destruct (response_ok s).
    + destruct (success_response_cases query limit json) as [[_ H]|(f & -> & _)].
      * rewrite H. repeat split; discriminate.
      * repeat split; discriminate.
    + repeat split; discriminate.
Qed.

(** X3: the response is a ValidationError exactly when a validation chain
    reports an error, and then whatever the credential and the upstream; the
    handler's own check of the limit never produces one.  With the chains
    passed, a missing or empty credential gives a ConfigurationError with
    status 500, before the food type is looked at. *)
Theorem validation_then_configuration
    (usdaApiKey : option string) (upstream : Upstream) (req : Request) :
  let r := get_foods usdaApiKey upstream req in
  (error_type r = Some "ValidationError" <-> validateFoodsQuery req <> [])
  /\ (validateFoodsQuery req <> [] ->
      r = {| status := 400;
             body := ErrorBody {|
               error := "Invalid request parameters: " ++ join ", " (validateFoodsQuery req);
               type := "ValidationError";
               upstream_status := None;
               upstream_details := None;
               original_error := None |} |})
  /\ (validateFoodsQuery req = [] ->
      ((usdaApiKey = None \/ usdaApiKey = Some "")
       <-> (status r = 500 /\ error_type r = Some "ConfigurationError"))).
Proof.
  intros r. subst r.
  destruct (get_foods_outcome usdaApiKey upstream req)
    as [Hv|Hv Hk|key message Hv Hk Hne Hc|key limit Ha].
  - split; [split; [intros _; exact Hv|reflexivity]|].
    split; [reflexivity|]. intros Hv'. contradiction.
  - split; [split; [discriminate|intros H; contradiction]|].
    split; [intros H; contradiction|]. intros _. split; [split; reflexivity|auto].
  - split; [split; [discriminate|intros H; contradiction]|].
    split; [intros H; contradiction|]. intros _. split.
    + intros [->| ->]; [discriminate Hk|inversion Hk; subst; congruence].
    + intros [H _]. discriminate H.
  - destruct (respond_type (trim (sanitized_type req)) limit
                (upstream key (trim (sanitized_type req)) (NumberToString limit)))
      as (H1 & H2 & _).
    destruct Ha as (Hv & -> & Hne & _).
    split; [split; [intros H; contradiction|intros H; contradiction]|].
    split; [intros H; contradiction|]. intros _. split.
    + intros [H|H]; [discriminate H|inversion H; subst; congruence].
    + intros [_ H]. contradiction.
Qed.

(** ** The limit *)

Lemma SFcompare_antisym (x y : number) :
  SFcompare y x = option_map CompOpp (SFcompare x y).
Proof.
  destruct x as [s|s| |s m e], y as [s'|s'| |s' m' e']; try reflexivity;
    try (destruct s; reflexivity); try (destruct s'; reflexivity);
    try (destruct s, s'; reflexivity).
  assert (Hm : Pos.compare_cont Eq m' m = CompOpp (Pos.compare_cont Eq m m')).
  { rewrite (Pos.compare_cont_antisym m m' Eq). reflexivity. }
  unfold SFcompare, option_map.
  rewrite (Z.compare_antisym e e'), Hm.
  destruct s, s'; try reflexivity;
    destruct (e ?= e'); simpl; try reflexivity;
    try now rewrite CompOpp_involutive.
Qed.

Lemma leb_not_ltb (x y : number) : leb x y = true -> ltb y x = false.
Proof.
  unfold leb, ltb, SFleb, SFltb. rewrite (SFcompare_antisym x y).
  destruct (SFcompare x y) as [[]|]; simpl; congruence.
Qed.

Lemma SFcompare_Eq_finite (s s' : bool) (m m' : positive) (e e' : Z) :
  SFcompare (S754_finite s m e) (S754_finite s' m' e') = Some Eq ->
  S754_finite s m e = S754_finite s' m' e'.
Proof.
  unfold SFcompare. destruct s, s'; try discriminate;
    destruct (Z.compare_spec e e') as [->|_|_]; try discriminate; intros H;
    injection H as H'.
  - apply (f_equal CompOpp) in H'. rewrite CompOpp_involutive in H'. simpl in H'.
    apply Pos.compare_eq in H'. now subst.
  - apply Pos.compare_eq in H'. now subst.
Qed.

(** [Math.min(x, 50)] leaves a finite [x <= 50] as it is. *)
Lemma Math_min_id (x : number) (m : positive) (e : Z) :
  is_finite x = true -> leb x (S754_finite false m e) = true ->
  Math_min x (S754_finite false m e) = x.
Proof.
  intros Hf Hle. unfold Math_min. rewrite (finite_not_nan x Hf).
  cbv beta iota delta [is_nan orb].
  destruct (ltb x (S754_finite false m e)) eqn:E1; [reflexivity|].
  rewrite (leb_not_ltb _ _ Hle).
  unfold leb, ltb, SFleb, SFltb in *.
  destruct (SFcompare x (S754_finite false m e)) as [[]|] eqn:Ec; try discriminate.
  destruct x as [[]|s| |s mx ex]; try discriminate; try reflexivity.
  symmetry. now apply SFcompare_Eq_finite.
Qed.

(** X4: for a request that passes the validation chains, the handler
    accepts the limit and changes nothing: the limit it uses, sends upstream
    and echoes is the number the validator compared with 1 and 50 (10 when
    the parameter is absent), so the handler's own refusal and its cap at 50
    are never exercised. *)
Theorem validated_limit (req : Request) :
  validateFoodsQuery req = [] ->
  exists limit,
    parse_limit req = Return limit
    /\ leb (of_Z 1) limit = true /\ leb limit (of_Z 50) = true
    /\ match query_limit req with
       | None => limit = of_Z 10
       | Some s => limit = StringToNumber s /\ limit = parseInt s
       end.
Proof.
  unfold validateFoodsQuery. intros H. apply app_eq_nil in H as [_ H].
  unfold limit_errors in H. destruct (query_limit req) as [s|] eqn:Hq.
  - destruct (isInt 1 50 s) eqn:Hi; [|discriminate].
    destruct (isInt_parseInt s Hi) as (E & Hlo & Hhi).
    destruct (between_1_and_50 _ Hlo Hhi) as [Hf Hpos].
    exists (parseInt s). unfold parse_limit. rewrite Hq, Hf, Hpos.
    cbv beta iota delta [negb orb].
    assert (Hmin : Math_min (parseInt s) (of_Z 50) = parseInt s).
    { rewrite of_Z_50 in *. now apply Math_min_id. }
    rewrite Hmin. repeat split; auto.
  - exists (of_Z 10). rewrite (parse_limit_default req Hq).
    repeat split; vm_compute; reflexivity.
Qed.

Lemma validated_limit_witness :
  parse_limit {| query_type := Some "apple"; query_limit := Some "+050" |}
  = Return (of_Z 50).
Proof.
  destruct (validated_limit {| query_type := Some "apple"; query_limit := Some "+050" |}
              eq_refl) as (limit & -> & _ & _ & -> & _).
  vm_compute. reflexivity.
Defined.

(** ** What is sent upstream *)





(** ** Refused food types *)



Lemma hyphen_is_special : is_word "-"%char = false /\ is_space "-"%char = false.
Proof. split; reflexivity. Qed.



(** ** Normalized items *)

Lemma normalize_total (item : value) : exists r, normalize item = Some r.
Proof. eexists. reflexivity. Qed.

(** X7: no item of the upstream list is dropped: [normalized] returns one
    record per item, in order, so the [catch] of the [map] callback and the
    [filter] never remove anything, and [count] in a success response is the
    length of the upstream [foods] array. *)
Theorem every_item_normalized (items : list value) :
  map Some (normalized items) = map normalize items
  /\ List.length (normalized items) = List.length items
  /\ forall query limit data,
       foods_of data = items ->
       typeof_object data = true -> truthy data = true ->
       exists f,
         success_response query limit (JsonValue data)
         = {| status := 200; body := FoodsBody f |}
         /\ count f = Z.of_nat (List.length items)
         /\ foods f = normalized items.
Proof.
  assert (H : map Some (normalized items) = map normalize items).
  { induction items as [|x l IH]; [reflexivity|].
    unfold normalized in *. simpl. now rewrite <- IH. }
  split; [exact H|]. split.
  - apply (f_equal (@List.length _)) in H. now rewrite !length_map in H.
  - intros query limit data Hd Ho Ht. unfold success_response, parse_body.
    rewrite Ho, Ht. simpl. eexists. split; [reflexivity|]. simpl.
    rewrite Hd. split; [|reflexivity]. f_equal.
    apply (f_equal (@List.length _)) in H. now rewrite !length_map in H.
Qed.

(** X8: every item, whatever its shape, yields a record none of whose
    descriptive fields is [undefined]: an absent field is [null].  The brand
    name falls back from [brandName] to [brandOwner] to [null], and an item
    without an array of nutrients has [null] calories and macros. *)
Theorem normalized_fields (item : value) :
  exists r,
    normalize item = Some r
    /\ fdcId r <> Undefined /\ description r <> Undefined
    /\ brandName r <> Undefined
    /\ servingSize r <> Undefined /\ servingSizeUnit r <> Undefined
    /\ brandName r =
       (if negb (nullish (opt_get item "brandName")) then opt_get item "brandName"
        else if negb (nullish (opt_get item "brandOwner")) then opt_get item "brandOwner"
        else Null)
    /\ (isArray (opt_get item "foodNutrients") = false ->
        calories r = None
        /\ macros r = {| protein_g := None; carbs_g := None; fat_g := None |}).
Proof.
  eexists. split; [reflexivity|]. simpl.
  assert (Hc : forall v, coalesce v Null <> Undefined).
  { intros v. unfold coalesce. destruct v; simpl; discriminate. }
  repeat split; try apply Hc.
  - unfold coalesce.
    destruct (opt_get item "brandName"); simpl; try reflexivity;
      destruct (opt_get item "brandOwner"); reflexivity.
  - unfold nutrients_of. destruct (opt_get item "foodNutrients"); try reflexivity.
    discriminate.
  - unfold nutrients_of. destruct (opt_get item "foodNutrients"); try reflexivity.
    discriminate.
Qed.

(** ** Network failures *)

(** X9: when the upstream call throws, the response has status 503 and
    type NetworkError, and its [error] is one of three fixed messages, chosen
    by the name of what was thrown; the thrown message itself only appears
    as [original_error], and only when an [Error] was thrown. *)
Theorem network_failure_response
    (usdaApiKey : option string) (upstream : Upstream) (req : Request)
    (key query : string) (limit : number) (thrown : Thrown) :
  accepted usdaApiKey req key query limit ->
  upstream key query (NumberToString limit) = FetchThrows thrown ->
  exists message,
    get_foods usdaApiKey upstream req =
    {| status := 503;
       body := ErrorBody {|
         error := message;
         type := "NetworkError";
         upstream_status := None;
         upstream_details := None;
         original_error := original_message thrown |} |}
    /\ In message
         ["Request to USDA API timed out. Please try again later.";
          "Failed to connect to USDA API. Please check your internet connection and try again.";
          "Network error occurred while fetching food data. Please try again later."]
    /\ (forall m, thrown = ErrorObject "AbortError" m ->
          message = "Request to USDA API timed out. Please try again later.").
Proof.
  intros Ha Hu. rewrite (get_foods_accepted usdaApiKey upstream req key query limit Ha), Hu.
  destruct thrown as [name m|]; simpl.
  - destruct (String.eqb name "AbortError") eqn:E1.
    + eexists. split; [reflexivity|]. split; [simpl; tauto|reflexivity].
    + destruct (String.eqb name "TypeError" && includes m "fetch");
        (eexists; split; [reflexivity|]; split; [simpl; tauto|]);
        intros m' H; inversion H; subst; discriminate E1.
  - eexists. split; [reflexivity|]. split; [simpl; tauto|]. discriminate.
Qed.

Lemma network_failure_response_witness :
  let upstream : Upstream :=
    fun _ _ _ => FetchThrows (ErrorObject "TypeError" "fetch failed") in
  get_foods (Some "key") upstream apple_request =
  {| status := 503;
     body := ErrorBody {|
       error := "Failed to connect to USDA API. Please check your internet connection and try again.";
       type := "NetworkError";
       upstream_status := None;
       upstream_details := None;
       original_error := Some "fetch failed" |} |}.
Proof.
  intros upstream.
  destruct (network_failure_response (Some "key") upstream apple_request "key" "apple"
              (of_Z 10) (ErrorObject "TypeError" "fetch failed") apple_accepted eq_refl)
    as (message & H & _).
  vm_compute. reflexivity.
Defined.

(** ** Records that cannot be read *)

Lemma null_unreadable : ~ readable Null.
Proof. intros (a & b & Ha & _). discriminate Ha. Qed.

Lemma object_code_unreadable (v : value) (fs : list (string * value)) :
  ~ readable (Obj (("nutrientNumber", Obj [("toString", v)]) :: fs)).
Proof. intros (a & b & Ha & _). discriminate Ha. Qed.

(** X10: the locator returns a record exactly when it is the first one
    that matches and every element before it could be read.  An element
    that cannot be read, such as [null] or a record whose code is an object
    with a [toString] key, ends the search with [null] even when a later
    record matches.  What is returned is always an element of the list. *)
Theorem findNutrient_stops_at_unreadable
    (nutrients : list value) (idsOrNames : list string) :
  (forall n,
      findNutrient nutrients idsOrNames = Some n
      <-> exists l1 l2,
            nutrients = (l1 ++ n :: l2)%list
            /\ record_matches idsOrNames n
            /\ Forall (fun x => readable x /\ ~ record_matches idsOrNames x) l1)
  /\ (forall l1 x l2,
         nutrients = (l1 ++ x :: l2)%list ->
         ~ readable x ->
         Forall (fun y => ~ record_matches idsOrNames y) l1 ->
         findNutrient nutrients idsOrNames = None)
  /\ (forall n, findNutrient nutrients idsOrNames = Some n -> In n nutrients)
  /\ ~ readable Null
  /\ (forall v fs, ~ readable (Obj (("nutrientNumber", Obj [("toString", v)]) :: fs))).
Proof.
  split; [|split; [|split; [|split]]].
  - intros n. rewrite findNutrient_Some. apply findNutrient_loop_Some.
  - intros l1 x l2 -> Hx Hl1.
    destruct (findNutrient (l1 ++ x :: l2) idsOrNames) as [n|] eqn:E; [|reflexivity].
    exfalso. apply findNutrient_Some, findNutrient_loop_Some in E
      as (k1 & k2 & E & Hn & Hk1).
    (* the match is before, at, or after [x] *)
    revert k1 E Hk1. induction l1 as [|y l1 IH]; intros k1 E Hk1.
    + destruct k1 as [|z k1]; simpl in E; inversion E; subst.
      * apply Hx. eapply record_matches_readable. exact Hn.
      * inversion Hk1 as [|? ? [Hz _] _]; subst. contradiction.
    + inversion Hl1 as [|? ? Hy Hl1']; subst.
      destruct k1 as [|z k1]; simpl in E; inversion E; subst.
      * contradiction.
      * inversion Hk1; subst. now apply (IH Hl1' k1).
  - apply findNutrient_In.
  - exact null_unreadable.
  - exact object_code_unreadable.
Qed.

Lemma findNutrient_stops_at_unreadable_witness :
  findNutrient [Null; protein_record] protein_ids = None
  /\ findNutrient [protein_record; Null] protein_ids = Some protein_record.
Proof.
  split.
  - destruct (findNutrient_stops_at_unreadable [Null; protein_record] protein_ids)
      as (_ & H & _).
    apply (H [] Null [protein_record] eq_refl null_unreadable). constructor.
  - destruct (findNutrient_stops_at_unreadable [protein_record; Null] protein_ids)
      as (H & _).
    apply H. exists [], [Null]. split; [reflexivity|]. split; [|constructor].
    exists "1003", "PROTEIN".
    split; [vm_compute; reflexivity|]. split; [vm_compute; reflexivity|].
    left. now left.
Defined.

(** * Rounding *)

(** ** Rounding a quotient to an integer *)

Lemma round_half_even_le (a b K : Z) :
  0 <= a -> 0 < b -> a <= K * b -> round_half_even a b <= K.
Proof.
  intros Ha Hb HK. unfold round_half_even.
  pose proof (Z.div_mod a b ltac:(lia)) as Hdm.
  pose proof (Z.mod_pos_bound a b Hb) as Hr.
  set (q := a / b) in *. set (r := a mod b) in *.
  assert (Hq : q <= K) by nia.
  assert (Hq' : 0 < r -> q + 1 <= K) by nia.
  destruct (Z.compare_spec (2 * r) b) as [E|E|E].
  - destruct (Z.even q); [exact Hq|apply Hq'; lia].
  - exact Hq.
  - apply Hq'. lia.
Qed.

Lemma round_half_even_ge (a b K : Z) :
  0 <= a -> 0 < b -> K <= round_half_even a b -> (2 * K - 1) * b <= 2 * a.
Proof.
  intros Ha Hb HK. unfold round_half_even in HK.
  pose proof (Z.div_mod a b ltac:(lia)) as Hdm.
  pose proof (Z.mod_pos_bound a b Hb) as Hr.
  set (q := a / b) in *. set (r := a mod b) in *.
  destruct (Z.compare_spec (2 * r) b) as [E|E|E].
  - destruct (Z.even q); nia.
  - nia.
  - nia.
Qed.

Lemma round_half_even_nonneg (a b : Z) :
  0 <= a -> 0 < b -> 0 <= round_half_even a b.
Proof.
  intros Ha Hb. unfold round_half_even.
  pose proof (Z.div_pos a b Ha Hb) as Hq.
  destruct (2 * (a mod b) ?= b); [destruct (Z.even (a / b))| |]; lia.
Qed.

Lemma round_half_up_le (a b K : Z) :
  0 <= a -> 0 < b -> a <= K * b -> round_half_up a b <= K.
Proof.
  intros Ha Hb HK. unfold round_half_up.
  apply Z.lt_succ_r. apply Z.div_lt_upper_bound; nia.
Qed.

Lemma round_half_up_nonneg (a b : Z) :
  0 <= a -> 0 < b -> 0 <= round_half_up a b.
Proof. intros Ha Hb. unfold round_half_up. apply Z.div_pos; lia. Qed.

(** The integer [round_half_up a b] is within one half of [a / b]. *)
Lemma round_half_up_close (a b : Z) :
  0 <= a -> 0 < b ->
  2 * a - b < 2 * b * round_half_up a b <= 2 * a + b.
Proof.
  intros Ha Hb. unfold round_half_up.
  pose proof (Z.div_mod (2 * a + b) (2 * b) ltac:(lia)) as Hdm.
  pose proof (Z.mod_pos_bound (2 * a + b) (2 * b) ltac:(lia)) as Hr.
  lia.
Qed.

(** ** [nearest] *)

Lemma nearest_sign_cases (s : bool) (p q : Z) :
  nearest s p q = S754_zero s \/ nearest s p q = S754_infinity s
  \/ exists m e, nearest s p q = S754_finite s m e.
Proof.
  unfold nearest. destruct (p <=? 0); [auto|].
  destruct (round_half_even _ _ =? 2 ^ 53).
  - destruct (_ >? 2045); [auto|]. right; right. eexists; eexists; reflexivity.
  - destruct (_ >? 2045); [auto|].
    destruct (round_half_even _ _); eauto.
Qed.

(** A quotient below the rounding boundary of the largest finite value,
    (2^54 - 1) * 2^970, does not overflow. *)
Lemma nearest_finite (s : bool) (p q : Z) :
  0 < q -> 2 * p < (2 ^ 54 - 1) * 2 ^ 971 * q ->
  is_finite (nearest s p q) = true.
Proof.
  intros Hq Hp. unfold nearest.
  destruct (Z.leb_spec p 0) as [_|Hp0]; [reflexivity|].
  set (T := 2 ^ 1074). set (P := p * T).
  assert (HT : 0 < T) by (apply Z.pow_pos_nonneg; lia).
  assert (HP : 0 < P) by (unfold P; nia).
  set (k := Z.log2 (P / q)).
  set (sh := Z.max (k - 52) 0).
  assert (Hsh0 : 0 <= sh) by lia.
  (* the exponent is in range *)
  assert (Hsh : sh <= 2045).
  { destruct (Z.le_gt_cases sh 2045) as [H|H]; [exact H|exfalso].
    assert (Hk : 2098 <= k) by lia.
    assert (Hpos : 0 < P / q).
    { destruct (Z.le_gt_cases (P / q) 0) as [H0|H0]; [|exact H0].
      unfold k in Hk. rewrite (Z.log2_nonpos _ H0) in Hk. lia. }
    pose proof (Z.log2_spec _ Hpos) as [Hlo _]. fold k in Hlo.
    assert (Hpow : 2 ^ 2098 <= 2 ^ k) by (apply Z.pow_le_mono_r; lia).
    assert (Hdiv : q * (P / q) <= P) by (apply Z.mul_div_le; exact Hq).
    assert (E : 2 ^ 2098 = 2 ^ 1024 * T) by (unfold T; rewrite <- Z.pow_add_r by lia; reflexivity).
    assert (E2 : 2 ^ 1024 = 2 ^ 53 * 2 ^ 971) by (rewrite <- Z.pow_add_r by lia; reflexivity).
    assert (H971 : 0 < 2 ^ 971) by (apply Z.pow_pos_nonneg; lia).
    assert (E54 : 2 ^ 54 = 18014398509481984) by reflexivity.
    assert (E53 : 2 ^ 53 = 9007199254740992) by reflexivity.
    assert (Hb : q * (2 ^ 1024 * T) <= p * T) by (unfold P in *; nia).
    assert (Hb' : q * 2 ^ 1024 <= p) by nia.
    nia. }
  set (m := round_half_even P (q * 2 ^ sh)).
  assert (Hden : 0 < q * 2 ^ sh).
  { apply Z.mul_pos_pos; [exact Hq|]. apply Z.pow_pos_nonneg; lia. }
  destruct (Z.eqb_spec m (2 ^ 53)) as [Hm|Hm].
  - (* rounding reached 2^53: the exponent goes up by one *)
    assert (Hsh' : sh <> 2045).
    { intros E. pose proof (round_half_even_ge P (q * 2 ^ sh) (2 ^ 53)
                              ltac:(lia) Hden ltac:(fold m; lia)) as Hge.
      rewrite E in Hge.
      assert (E2045 : 2 ^ 2045 = 2 ^ 971 * T)
        by (unfold T; rewrite <- Z.pow_add_r by lia; reflexivity).
      assert (E54 : 2 * 2 ^ 53 = 2 ^ 54) by reflexivity.
      rewrite E2045, E54 in Hge. unfold P in Hge.
      assert (H971 : 0 < 2 ^ 971) by (apply Z.pow_pos_nonneg; lia).
      nia. }
    destruct (Z.gtb_spec (sh + 1) 2045); [lia|]. reflexivity.
  - destruct (Z.gtb_spec sh 2045); [lia|]. destruct m; reflexivity.
Qed.

(** ** Printing and reading decimal digits *)

Lemma digit_char_spec (d : Z) :
  0 <= d <= 9 -> is_digit (digit_char d) = true /\ code (digit_char d) - 48 = d.
Proof.
  intros H.
  assert (E : d = 0 \/ d = 1 \/ d = 2 \/ d = 3 \/ d = 4 \/ d = 5 \/ d = 6
              \/ d = 7 \/ d = 8 \/ d = 9) by lia.
  repeat (destruct E as [->|E]; [split; reflexivity|]). subst. split; reflexivity.
Qed.

Definition digit_step (acc : Z) (c : ascii) : Z := 10 * acc + (code c - 48).

Lemma digits_val_fold (l : list ascii) : digits_val l = fold_left digit_step l 0.
Proof. reflexivity. Qed.

Lemma fold_digit_step_app (l1 l2 : list ascii) (a : Z) :
  fold_left digit_step (l1 ++ l2) a = fold_left digit_step l2 (fold_left digit_step l1 a).
Proof. apply fold_left_app. Qed.

(** Reading digits after an accumulator [a] shifts [a] and adds the value
    of the digits. *)
Lemma fold_digit_step_shift (l : list ascii) (a : Z) :
  fold_left digit_step l a = a * 10 ^ Z.of_nat (List.length l) + fold_left digit_step l 0.
Proof.
  revert a. induction l as [|c r IH]; intros a.
  - simpl. lia.
  - cbn [fold_left List.length]. rewrite (IH (digit_step a c)), (IH (digit_step 0 c)).
    rewrite Nat2Z.inj_succ, Z.pow_succ_r by lia. unfold digit_step. ring.
Qed.

Lemma digits_val_app (l1 l2 : list ascii) :
  digits_val (l1 ++ l2) = digits_val l1 * 10 ^ Z.of_nat (List.length l2) + digits_val l2.
Proof.
  rewrite !digits_val_fold, fold_digit_step_app. apply fold_digit_step_shift.
Qed.

Lemma digits_fuel_spec (fuel : nat) (n : Z) (acc : list ascii) :
  0 <= n < 10 ^ Z.of_nat fuel ->
  exists l,
    digits_fuel fuel n acc = (l ++ acc)%list
    /\ forallb is_digit l = true
    /\ (fuel <> O -> l <> [])
    /\ digits_val l = n.
Proof.
  revert n acc. induction fuel as [|f IH]; intros n acc Hn.
  - exists []. change (10 ^ Z.of_nat 0) with 1 in Hn.
    split; [reflexivity|]. split; [reflexivity|]. split; [congruence|].
    unfold digits_val. simpl. lia.
  - cbn [digits_fuel].
    assert (Hmod : 0 <= n mod 10 <= 9) by (pose proof (Z.mod_pos_bound n 10); lia).
    destruct (digit_char_spec _ Hmod) as [Hd Hc].
    destruct (Z.ltb_spec n 10) as [Hlt|Hge].
    + exists [digit_char (n mod 10)]. repeat split.
      * simpl. now rewrite Hd.
      * discriminate.
      * unfold digits_val. simpl. rewrite Hc. rewrite Z.mod_small; lia.
    + assert (Hdiv : 0 <= n / 10 < 10 ^ Z.of_nat f).
      { rewrite Nat2Z.inj_succ, Z.pow_succ_r in Hn by lia.
        split; [apply Z.div_pos; lia|apply Z.div_lt_upper_bound; lia]. }
      destruct (IH (n / 10) (digit_char (n mod 10) :: acc) Hdiv) as (l & E & Hl & _ & Hv).
      exists (l ++ [digit_char (n mod 10)])%list. repeat split.
      * rewrite E, <- app_assoc. reflexivity.
      * rewrite forallb_app, Hl. simpl. now rewrite Hd.
      * intros _ H. apply app_eq_nil in H as [_ H]. discriminate.
      * rewrite digits_val_app, Hv. unfold digits_val at 1. simpl.
        rewrite Hc. pose proof (Z.div_mod n 10). lia.
Qed.

(** [digits n] is a non-empty run of digits whose value is [n]. *)
Lemma digits_spec (n : Z) :
  0 <= n ->
  forallb is_digit (digits n) = true /\ digits n <> [] /\ digits_val (digits n) = n.
Proof.
  intros Hn. unfold digits.
  assert (Hb : 0 <= n < 10 ^ Z.of_nat (S (Z.to_nat (Z.log2 n)))).
  { split; [exact Hn|]. rewrite Nat2Z.inj_succ, Z2Nat.id by apply Z.log2_nonneg.
    destruct (Z.eq_dec n 0) as [->|Hz]; [reflexivity|].
    pose proof (Z.log2_spec n ltac:(lia)) as [_ Hhi].
    eapply Z.lt_le_trans; [exact Hhi|].
    apply Z.pow_le_mono_l. lia. }
  destruct (digits_fuel_spec _ n [] Hb) as (l & E & Hl & Hne & Hv).
  rewrite E, app_nil_r. repeat split; auto.
Qed.

Lemma digits_val_zeros (k : nat) (l : list ascii) :
  digits_val (repeat "0"%char k ++ l) = digits_val l.
Proof.
  rewrite digits_val_app.
  assert (E : digits_val (repeat "0"%char k) = 0).
  { induction k as [|k IH]; [reflexivity|].
    change (repeat "0"%char (S k)) with (["0"%char] ++ repeat "0"%char k)%list.
    rewrite digits_val_app, IH. reflexivity. }
  rewrite E. lia.
Qed.

Lemma forallb_digit_zeros (k : nat) : forallb is_digit (repeat "0"%char k) = true.
Proof. induction k as [|k IH]; [reflexivity|]. simpl. exact IH. Qed.

(** ** Reading back what [toFixed] prints *)

Lemma parse_nondecimal_point (a b : list ascii) :
  forallb is_digit a = true -> parse_nondecimal (a ++ "."%char :: b) = None.
Proof.
  intros Ha. destruct a as [|c [|p a']].
  - reflexivity.
  - simpl. destruct c as [[] [] [] [] [] [] [] []]; try reflexivity;
      destruct b; reflexivity.
  - simpl in Ha. apply andb_prop in Ha as [_ Ha]. apply andb_prop in Ha as [Hp _].
    assert (E : forall x : ascii, is_digit x = false -> (p =? x)%char = false).
    { intros x Hx. destruct (Ascii.eqb_spec p x) as [->|]; congruence. }
    unfold parse_nondecimal. cbn [app].
    rewrite !E by reflexivity. simpl.
    destruct c as [[] [] [] [] [] [] [] []]; try reflexivity;
      destruct a'; reflexivity.
Qed.

Lemma fixed_digits_shape (d : nat) (n : Z) :
  0 <= n ->
  (d = O /\ fixed_digits d n = digits n)
  \/ (exists a b,
        fixed_digits d n = (a ++ "."%char :: b)%list
        /\ a <> [] /\ forallb is_digit a = true /\ forallb is_digit b = true
        /\ List.length b = d /\ b <> [] /\ digits_val (a ++ b) = n).
Proof.
  intros Hn. destruct d as [|d']; [left; split; reflexivity|right].
  destruct (digits_spec n Hn) as (Hd & Hne & Hv).
  unfold fixed_digits. set (d := S d').
  set (m := pad_zeros (S d) (digits n)).
  assert (Hm : forallb is_digit m = true).
  { unfold m, pad_zeros. rewrite forallb_app, forallb_digit_zeros. exact Hd. }
  assert (Hlen : (S d <= List.length m)%nat).
  { unfold m, pad_zeros. rewrite length_app, repeat_length. lia. }
  assert (Hval : digits_val m = n).
  { unfold m, pad_zeros. now rewrite digits_val_zeros. }
  set (k := (List.length m - d)%nat).
  exists (firstn k m), (skipn k m).
  pose proof (firstn_skipn k m) as Hsplit.
  assert (Hfa : forallb is_digit (firstn k m) = true
                /\ forallb is_digit (skipn k m) = true).
  { rewrite <- Hsplit, forallb_app in Hm. now apply andb_prop in Hm. }
  destruct Hfa as [Hfa Hfb].
  assert (Hlb : List.length (skipn k m) = d) by (rewrite length_skipn; unfold k; lia).
  assert (Hla : List.length (firstn k m) = k) by (rewrite length_firstn; unfold k; lia).
  repeat split; try assumption.
  - intros E. rewrite E in Hla. simpl in Hla. unfold k in Hla. lia.
  - intros E. rewrite E in Hlb. discriminate Hlb.
  - now rewrite Hsplit.
Qed.

Lemma parse_unsigned_fixed (d : nat) (n : Z) :
  0 <= n -> parse_unsigned (fixed_digits d n) = Some (n, - Z.of_nat d).
Proof.
  intros Hn. destruct (fixed_digits_shape d n Hn)
    as [[-> ->]|(a & b & -> & Ha & Hda & Hdb & Hlb & Hb & Hv)].
  - destruct (digits_spec n Hn) as (Hd & Hne & Hv).
    unfold parse_unsigned. rewrite (span_digits_all _ Hd).
    destruct (digits n) as [|c r] eqn:E; [congruence|].
    cbn [is_nil andb]. rewrite app_nil_r, Hv. reflexivity.
  - unfold parse_unsigned.
    rewrite (span_digits_app a ("."%char :: b) Hda eq_refl).
    rewrite (span_digits_all _ Hdb).
    destruct a as [|c r]; [congruence|].
    cbn [is_nil andb]. rewrite Hv, Hlb. reflexivity.
Qed.

Lemma fixed_digits_ends (d : nat) (n : Z) :
  0 <= n ->
  exists c r,
    fixed_digits d n = c :: r /\ is_digit c = true
    /\ (match rev (fixed_digits d n) with
        | [] => False
        | x :: _ => is_digit x = true
        end)
    /\ parse_nondecimal (fixed_digits d n) = None.
Proof.
  intros Hn. destruct (fixed_digits_shape d n Hn)
    as [[-> ->]|(a & b & -> & Ha & Hda & Hdb & Hlb & Hb & Hv)].
  - destruct (digits_spec n Hn) as (Hd & Hne & Hv).
    pose proof (forallb_rev_head is_digit _ Hd) as Hlast.
    destruct (digits n) as [|c r] eqn:E; [congruence|].
    exists c, r. split; [reflexivity|]. split; [simpl in Hd; now apply andb_prop in Hd|].
    split; [|now apply parse_nondecimal_digits].
    destruct (rev (c :: r)) as [|x t] eqn:Er; [|exact Hlast].
    apply (f_equal (@List.length _)) in Er. rewrite length_rev in Er. discriminate.
  - destruct a as [|c r]; [congruence|].
    exists c, (r ++ "."%char :: b)%list. split; [reflexivity|].
    split; [simpl in Hda; now apply andb_prop in Hda|].
    split; [|now apply parse_nondecimal_point].
    rewrite rev_app_distr. cbn [rev].
    pose proof (forallb_rev_head is_digit _ Hdb) as Hlast.
    destruct (rev b) as [|x t] eqn:Er; [|exact Hlast].
    apply (f_equal (@List.length _)) in Er. rewrite length_rev in Er.
    destruct b; [congruence|discriminate].
Qed.

(** [Number] reads a signed fixed-point literal as the decimal it shows. *)
Lemma StringToNumber_fixed (neg : bool) (d : nat) (n : Z) :
  0 <= n ->
  StringToNumber
    (string_of_list_ascii ((if neg then ["-"%char] else []) ++ fixed_digits d n))
  = decimal_value neg n (- Z.of_nat d).
Proof.
  intros Hn. destruct (fixed_digits_ends d n Hn) as (c & r & E & Hc & Hlast & Hnd).
  pose proof (parse_unsigned_fixed d n Hn) as Hpu.
  unfold StringToNumber. rewrite list_ascii_of_string_of_list_ascii.
  set (body := fixed_digits d n) in *.
  set (l := ((if neg then ["-"%char] else []) ++ body)%list).
  assert (Hfirst : match l with [] => True | x :: _ => is_space x = false end).
  { unfold l. destruct neg; simpl; [reflexivity|]. rewrite E. now apply digit_not_space. }
  assert (Hlastl : match rev l with [] => True | x :: _ => is_space x = false end).
  { unfold l. rewrite rev_app_distr.
    destruct (rev body) as [|x t]; [contradiction|]. simpl. now apply digit_not_space. }
  rewrite (trim_list_id l Hfirst Hlastl).
  assert (Hnil : is_nil l = false) by (unfold l; rewrite E; now destruct neg).
  rewrite Hnil.
  assert (Hnd' : parse_nondecimal l = None).
  { unfold l. destruct neg; [reflexivity|exact Hnd]. }
  rewrite Hnd'. unfold parse_decimal.
  assert (Hs : split_sign l = (neg, body)).
  { unfold l. destruct neg; [reflexivity|]. simpl. rewrite E. now apply split_sign_digit. }
  rewrite Hs. rewrite E at 1. rewrite (list_ascii_eqb_digit_Infinity c r Hc).
  now rewrite Hpu.
Qed.

(** ** [Number(x.toFixed(d))] below 10^21 *)

Lemma decimal_value_nearest (s : bool) (n : Z) (d : nat) :
  decimal_value s n (- Z.of_nat d) = nearest s n (10 ^ Z.of_nat d).
Proof.
  unfold decimal_value. destruct d as [|d].
  - simpl. now rewrite Z.mul_1_r.
  - destruct (Z.ltb_spec (- Z.of_nat (S d)) 0); [|lia].
    now rewrite Z.opp_involutive.
Qed.

Lemma overflow_above_1e21 : 2 * 10 ^ 21 < (2 ^ 54 - 1) * 2 ^ 971.
Proof. apply Z.ltb_lt. vm_compute. reflexivity. Qed.

Lemma exact_den_pos (e : Z) : 0 < exact_den e.
Proof. unfold exact_den. apply Z.pow_pos_nonneg; lia. Qed.

Lemma exact_num_pos (m : positive) (e : Z) : 0 < exact_num m e.
Proof.
  unfold exact_num. apply Z.mul_pos_pos; [lia|]. apply Z.pow_pos_nonneg; lia.
Qed.

(** Below 10^21, [Number(x.toFixed(d))] is the number nearest to [n / 10^d],
    where [n] is the integer nearest to [|x| * 10^d], ties upwards; it is
    finite and has the sign of [x]. *)
Lemma Number_toFixed_small (d : nat) (s : bool) (m : positive) (e : Z) :
  exact_num m e < 10 ^ 21 * exact_den e ->
  let n := round_half_up (exact_num m e * 10 ^ Z.of_nat d) (exact_den e) in
  Number_toFixed d (S754_finite s m e) = nearest s n (10 ^ Z.of_nat d)
  /\ is_finite (nearest s n (10 ^ Z.of_nat d)) = true
  /\ 0 <= n.
Proof.
  intros Hsmall n.
  pose proof (exact_den_pos e) as Hq. pose proof (exact_num_pos m e) as Hp.
  assert (H10 : 0 < 10 ^ Z.of_nat d) by (apply Z.pow_pos_nonneg; lia).
  assert (Hn : 0 <= n) by (apply round_half_up_nonneg; nia).
  split; [|split; [|exact Hn]].
  - unfold Number_toFixed, toFixed.
    destruct (Z.leb_spec (10 ^ 21 * exact_den e) (exact_num m e)) as [H|_]; [lia|].
    fold n. rewrite (StringToNumber_fixed s d n Hn). apply decimal_value_nearest.
  - apply nearest_finite; [exact H10|].
    assert (Hle : n <= 10 ^ 21 * 10 ^ Z.of_nat d).
    { apply round_half_up_le; nia. }
    pose proof overflow_above_1e21 as Hc.
    set (C := (2 ^ 54 - 1) * 2 ^ 971) in *. nia.
Qed.

Lemma Number_toFixed_zero (d : nat) (s : bool) :
  Number_toFixed d (S754_zero s) = S754_zero false.
Proof.
  unfold Number_toFixed, toFixed.
  pose proof (StringToNumber_fixed false d 0 ltac:(lia)) as H. cbn [app] in H.
  rewrite H, decimal_value_nearest. reflexivity.
Qed.

(** * Properties of the extractors *)

(** What both extractors do with the located record: [d] fraction digits,
    and division by [factor] when the lower-cased unit is [from]. *)
Definition rounded_value (d : nat) (from : string) (factor : number) (m : value)
  : option number :=
  if negb (truthy m) then None else
  try_catch
    (bind (unit_of m) (fun unit =>
     bind (value_of m) (fun value =>
       if negb (is_finite value) then Return None
       else if String.eqb unit from then
         Return (Some (Number_toFixed d (div value factor)))
       else Return (Some (Number_toFixed d value)))))
    (fun _ => None).

Lemma getEnergyKcal_located (nutrients : list value) :
  getEnergyKcal nutrients =
  match findNutrient nutrients ["1008"; "Energy"] with
  | None => None
  | Some m => rounded_value 1 "kj" kJ_per_kcal m
  end.
Proof.
  unfold getEnergyKcal, getEnergyKcal_body, rounded_value.
  destruct (findNutrient nutrients ["1008"; "Energy"]) as [m|]; [|reflexivity].
  destruct (negb (truthy m)); reflexivity.
Qed.

Lemma getNutrientGrams_located (nutrients : list value) (idsOrNames : list string) :
  getNutrientGrams nutrients idsOrNames =
  match findNutrient nutrients idsOrNames with
  | None => None
  | Some m => rounded_value 2 "mg" mg_per_g m
  end.
Proof.
  unfold getNutrientGrams, getNutrientGrams_body, rounded_value.
  destruct (findNutrient nutrients idsOrNames) as [m|]; [|reflexivity].
  destruct (negb (truthy m)); reflexivity.
Qed.

(** [|x| < 10^21], the range in which [toFixed] prints fixed-point digits. *)
Definition below_1e21 (x : number) : bool :=
  match x with
  | S754_zero _ => true
  | S754_finite _ m e => exact_num m e <? 10 ^ 21 * exact_den e
  | _ => false
  end.

(** [r] is [x] rounded to [d] decimals: the number nearest to [n / 10^d]
    with the sign of [x], for an integer [n] within one half of
    [|x| * 10^d]; +0 when [x] is a zero. *)
Definition decimal_rounding (d : nat) (x r : number) : Prop :=
  match x with
  | S754_zero _ => r = S754_zero false
  | S754_finite s m e =>
      exists n,
        r = nearest s n (10 ^ Z.of_nat d)
        /\ 0 <= n
        /\ 2 * exact_num m e * 10 ^ Z.of_nat d - exact_den e
           < 2 * exact_den e * n
           <= 2 * exact_num m e * 10 ^ Z.of_nat d + exact_den e
  | _ => False
  end.

Lemma Number_toFixed_rounding (d : nat) (x : number) :
  below_1e21 x = true ->
  is_finite (Number_toFixed d x) = true
  /\ decimal_rounding d x (Number_toFixed d x).
Proof.
  destruct x as [s|s| |s m e]; try discriminate; intros H.
  - rewrite Number_toFixed_zero. split; reflexivity.
  - apply Z.ltb_lt in H.
    destruct (Number_toFixed_small d s m e H) as (E & Hf & Hn).
    rewrite E. split; [exact Hf|]. eexists. split; [reflexivity|]. split; [exact Hn|].
    pose proof (round_half_up_close (exact_num m e * 10 ^ Z.of_nat d) (exact_den e)) as Hc.
    pose proof (exact_den_pos e). pose proof (exact_num_pos m e).
    assert (0 < 10 ^ Z.of_nat d) by (apply Z.pow_pos_nonneg; lia).
    lia.
Qed.

Lemma rounded_value_spec (d : nat) (from : string) (factor : number) (m : value)
    (unit : string) (v : number) :
  truthy m = true -> unit_of m = Return unit -> value_of m = Return v ->
  rounded_value d from factor m =
  if is_finite v
  then Some (Number_toFixed d (if String.eqb unit from then div v factor else v))
  else None.
Proof.
  intros Ht Hu Hv. unfold rounded_value. rewrite Ht, Hu, Hv. simpl.
  destruct (is_finite v); simpl; [|reflexivity].
  destruct (String.eqb unit from); reflexivity.
Qed.

(** X11: for a located record whose unit and value can be read, both
    extractors return [null] when the value is not finite; otherwise they
    divide by 4.184 (unit "kj") or by 1000 (unit "mg"), and when the value to
    print is below 10^21 in magnitude the result is finite and is that value
    correctly rounded: the number nearest to the decimal with 1 (energy) or
    2 (grams) fraction digits nearest to it. *)
Theorem extractors_round
    (nutrients : list value) (idsOrNames : list string) (m : value)
    (unit : string) (v : number) :
  truthy m = true -> unit_of m = Return unit -> value_of m = Return v ->
  let kcal := if String.eqb unit "kj" then div v kJ_per_kcal else v in
  let grams := if String.eqb unit "mg" then div v mg_per_g else v in
  (findNutrient nutrients ["1008"; "Energy"] = Some m ->
   (is_finite v = false -> getEnergyKcal nutrients = None)
   /\ (is_finite v = true -> below_1e21 kcal = true ->
       exists r, getEnergyKcal nutrients = Some r
                 /\ is_finite r = true /\ decimal_rounding 1 kcal r))
  /\ (findNutrient nutrients idsOrNames = Some m ->
      (is_finite v = false -> getNutrientGrams nutrients idsOrNames = None)
      /\ (is_finite v = true -> below_1e21 grams = true ->
          exists r, getNutrientGrams nutrients idsOrNames = Some r
                    /\ is_finite r = true /\ decimal_rounding 2 grams r)).
Proof.
  intros Ht Hu Hv kcal grams. split; intros Hfind.
  - rewrite getEnergyKcal_located, Hfind,
      (rounded_value_spec 1 "kj" kJ_per_kcal m unit v Ht Hu Hv).
    split; intros Hf; rewrite Hf; [reflexivity|].
    intros Hb. fold kcal. eexists. split; [reflexivity|].
    now apply Number_toFixed_rounding.
  - rewrite getNutrientGrams_located, Hfind,
      (rounded_value_spec 2 "mg" mg_per_g m unit v Ht Hu Hv).
    split; intros Hf; rewrite Hf; [reflexivity|].
    intros Hb. fold grams. eexists. split; [reflexivity|].
    now apply Number_toFixed_rounding.
Qed.

Definition energy_record : value :=
  Obj [("nutrientNumber", Str "1008"); ("nutrientName", Str "Energy");
       ("value", Num (of_Z 100)); ("unitName", Str "kJ")].

Lemma extractors_round_witness :
  exists r, getEnergyKcal [energy_record] = Some r
            /\ is_finite r = true
            /\ decimal_rounding 1 (div (of_Z 100) kJ_per_kcal) r.
Proof.
  destruct (extractors_round [energy_record] [] energy_record "kj" (of_Z 100)
              eq_refl eq_refl eq_refl) as [H _].
  assert (Hfind : findNutrient [energy_record] ["1008"; "Energy"] = Some energy_record)
    by (vm_compute; reflexivity).
  destruct (H Hfind) as [_ H'].
  apply H'; vm_compute; reflexivity.
Defined.

(** ** Units and values that are not what they should be *)

Lemma kJ_per_kcal_value : kJ_per_kcal = S754_finite false 4710765210229539 (-50).
Proof. vm_compute. reflexivity. Qed.

Lemma mg_per_g_value : mg_per_g = S754_finite false 8796093022208000 (-43).
Proof. vm_compute. reflexivity. Qed.

(** The value the unit is read from: [match.unitName || match.unit || '']. *)
Definition effective_unit (fs : list (string * value)) : value :=
  or_else (lookup "unitName" fs) (or_else (lookup "unit" fs) (Str "")).

Lemma unit_of_object (fs : list (string * value)) :
  unit_of (Obj fs) = call_toLowerCase (effective_unit fs).
Proof.
  unfold unit_of, effective_unit, or_else. simpl.
  destruct (truthy (lookup "unitName" fs)); reflexivity.
Qed.

(** X12: the unit of a record is its [unitName] unless that is falsy
    (absent, null, false, 0 or the empty string), then its [unit], then the
    empty string, in lower case.  If the value so chosen is not a string, the
    exception is swallowed and both extractors return [null], whatever the
    value of the record. *)
Theorem unit_selection
    (nutrients : list value) (idsOrNames : list string) (fs : list (string * value)) :
  (truthy (lookup "unitName" fs) = true -> effective_unit fs = lookup "unitName" fs)
  /\ (truthy (lookup "unitName" fs) = false -> truthy (lookup "unit" fs) = true ->
      effective_unit fs = lookup "unit" fs)
  /\ (truthy (lookup "unitName" fs) = false -> truthy (lookup "unit" fs) = false ->
      effective_unit fs = Str "")
  /\ (forall u, effective_unit fs = Str u -> unit_of (Obj fs) = Return (toLowerCase u))
  /\ ((forall u, effective_unit fs <> Str u) ->
      (findNutrient nutrients ["1008"; "Energy"] = Some (Obj fs) ->
       getEnergyKcal nutrients = None)
      /\ (findNutrient nutrients idsOrNames = Some (Obj fs) ->
          getNutrientGrams nutrients idsOrNames = None)).
Proof.
  unfold effective_unit, or_else.
  split; [intros ->; reflexivity|].
  split; [intros -> ->; reflexivity|].
  split; [intros -> ->; reflexivity|].
  split.
  - intros u Hu. rewrite unit_of_object. unfold effective_unit, or_else.
    rewrite Hu. reflexivity.
  - intros Hn.
    assert (Ht : unit_of (Obj fs) = Throw mkTypeError).
    { rewrite unit_of_object. unfold effective_unit, or_else.
      destruct (if truthy (lookup "unitName" fs) then lookup "unitName" fs
                else if truthy (lookup "unit" fs) then lookup "unit" fs else Str "")
        as [| | | |u| |] eqn:E; try reflexivity.
      exfalso. now apply (Hn u). }
    split; intros Hfind.
    + rewrite getEnergyKcal_located, Hfind. unfold rounded_value. rewrite Ht. reflexivity.
    + rewrite getNutrientGrams_located, Hfind. unfold rounded_value. rewrite Ht. reflexivity.
Qed.

Lemma unit_selection_witness :
  getEnergyKcal
    [Obj [("nutrientName", Str "Energy"); ("value", Num (of_Z 100));
          ("unitName", Num (of_Z 1))]]
  = None.
Proof.
  set (fs := [("nutrientName", Str "Energy"); ("value", Num (of_Z 100));
              ("unitName", Num (of_Z 1))]).
  destruct (unit_selection [Obj fs] [] fs) as (_ & _ & _ & _ & H).
  assert (Hn : forall u, effective_unit fs <> Str u).
  { intros u. vm_compute. discriminate. }
  destruct (H Hn) as [He _]. apply He. vm_compute. reflexivity.
Defined.

Lemma div_zero_finite (s s' : bool) (m : positive) (e : Z) :
  div (S754_zero s) (S754_finite s' m e) = S754_zero (xorb s s').
Proof. reflexivity. Qed.

(** X13: for a located record whose unit can be read, an absent value
    gives [null], but a value that is [null], [false] or the empty string is
    coerced to 0, and both extractors then return 0, whatever the unit. *)
Theorem coerced_values
    (nutrients : list value) (idsOrNames : list string) (fs : list (string * value))
    (unit : string) :
  unit_of (Obj fs) = Return unit ->
  (findNutrient nutrients ["1008"; "Energy"] = Some (Obj fs) ->
   (lookup "value" fs = Undefined -> getEnergyKcal nutrients = None)
   /\ (In (lookup "value" fs) [Null; Bool false; Str ""] ->
       getEnergyKcal nutrients = Some (S754_zero false)))
  /\ (findNutrient nutrients idsOrNames = Some (Obj fs) ->
      (lookup "value" fs = Undefined -> getNutrientGrams nutrients idsOrNames = None)
      /\ (In (lookup "value" fs) [Null; Bool false; Str ""] ->
          getNutrientGrams nutrients idsOrNames = Some (S754_zero false))).
Proof.
  intros Hu.
  assert (Hzero : In (lookup "value" fs) [Null; Bool false; Str ""] ->
                  value_of (Obj fs) = Return (S754_zero false)).
  { intros Hin. unfold value_of. simpl get. simpl bind.
    simpl in Hin. destruct Hin as [<-|[<-|[<-|[]]]]; reflexivity. }
  assert (Hundef : lookup "value" fs = Undefined -> value_of (Obj fs) = Return S754_nan).
  { intros E. unfold value_of. simpl get. simpl bind. rewrite E. reflexivity. }
  split; intros Hfind.
  - rewrite getEnergyKcal_located, Hfind. split; intros H.
    + now rewrite (rounded_value_spec 1 "kj" kJ_per_kcal (Obj fs) unit _ eq_refl Hu (Hundef H)).
    + rewrite (rounded_value_spec 1 "kj" kJ_per_kcal (Obj fs) unit _ eq_refl Hu (Hzero H)).
      cbn [is_finite]. rewrite kJ_per_kcal_value, div_zero_finite.
      destruct (String.eqb unit "kj"); now rewrite Number_toFixed_zero.
  - rewrite getNutrientGrams_located, Hfind. split; intros H.
    + now rewrite (rounded_value_spec 2 "mg" mg_per_g (Obj fs) unit _ eq_refl Hu (Hundef H)).
    + rewrite (rounded_value_spec 2 "mg" mg_per_g (Obj fs) unit _ eq_refl Hu (Hzero H)).
      cbn [is_finite]. rewrite mg_per_g_value, div_zero_finite.
      destruct (String.eqb unit "mg"); now rewrite Number_toFixed_zero.
Qed.

Lemma coerced_values_witness :
  getNutrientGrams
    [Obj [("nutrientNumber", Str "1003"); ("value", Null); ("unitName", Str "G")]]
    protein_ids
  = Some (S754_zero false).
Proof.
  set (fs := [("nutrientNumber", Str "1003"); ("value", Null); ("unitName", Str "G")]).
  destruct (coerced_values [Obj fs] protein_ids fs "g" eq_refl) as [_ H].
  assert (Hfind : findNutrient [Obj fs] protein_ids = Some (Obj fs))
    by (vm_compute; reflexivity).
  destruct (H Hfind) as [_ Hz]. apply Hz. simpl. auto.
Defined.

(** * Limits out of range *)

Lemma round_half_even_lower (a b K : Z) :
  0 <= a -> 0 < b -> K * b <= a -> K <= round_half_even a b.
Proof.
  intros Ha Hb HK. unfold round_half_even.
  assert (Hq : K <= a / b) by (apply Z.div_le_lower_bound; lia).
  destruct (2 * (a mod b) ?= b); [destruct (Z.even (a / b))| |]; lia.
Qed.

Lemma round_half_even_exact (c b : Z) :
  0 < b -> round_half_even (c * b) b = c.
Proof.
  intros Hb. unfold round_half_even.
  rewrite Z.div_mul, Z.mod_mul by lia.
  destruct (Z.compare_spec (2 * 0) b); lia.
Qed.

(** An integer above 50 is read as a number above 50. *)
Lemma nearest_above_50 (n : Z) :
  50 < n -> leb (nearest false n 1) (S754_finite false 7036874417766400 (-47)) = false.
Proof.
  intros Hn. unfold nearest.
  destruct (Z.leb_spec n 0) as [H|_]; [lia|].
  rewrite Z.div_1_r, Z.mul_1_l, (Z.log2_mul_pow2 n 1074) by lia.
  set (L := Z.log2 n).
  assert (HL : 5 <= L).
  { change 5 with (Z.log2 32). apply Z.log2_le_mono. lia. }
  pose proof (Z.log2_spec n ltac:(lia)) as [Hlo Hhi]. fold L in Hlo, Hhi.
  replace (Z.max (1074 + L - 52) 0) with (L + 1022) by lia.
  set (sh := L + 1022).
  set (m := round_half_even (n * 2 ^ 1074) (2 ^ sh)).
  assert (Hsh : 0 < 2 ^ sh) by (apply Z.pow_pos_nonneg; lia).
  assert (Hm : 2 ^ 52 <= m).
  { apply round_half_even_lower; [|exact Hsh|].
    - apply Z.mul_nonneg_nonneg; [lia|]. apply Z.pow_nonneg. lia.
    - unfold sh. rewrite <- Z.pow_add_r by lia.
      replace (52 + (L + 1022)) with (L + 1074) by lia.
      rewrite Z.pow_add_r by lia. apply Z.mul_le_mono_nonneg_r; [|exact Hlo].
      apply Z.pow_nonneg. lia. }
  assert (E52 : 2 ^ 52 = 4503599627370496) by reflexivity.
  destruct (Z.eqb_spec m (2 ^ 53)) as [E|_].
  - destruct (sh + 1 >? 2045); [reflexivity|].
    rewrite E52. unfold leb, SFleb, SFcompare.
    destruct (Z.compare_spec (sh + 1 - 1074) (-47)) as [H|H|H];
      [unfold sh in H; lia|unfold sh in H; lia|reflexivity].
  - destruct (sh >? 2045); [reflexivity|].
    destruct m as [|pm|pm] eqn:Em; [lia| |lia].
    unfold leb, SFleb, SFcompare.
    destruct (Z.compare_spec (sh - 1074) (-47)) as [H|H|H];
      [|unfold sh in H; lia|reflexivity].
    assert (EL : L = 5) by (unfold sh in H; lia).
    assert (Em' : m = n * 2 ^ 47).
    { unfold m, sh. rewrite EL.
      replace (n * 2 ^ 1074) with (n * 2 ^ 47 * 2 ^ (5 + 1022)).
      - apply round_half_even_exact. apply Z.pow_pos_nonneg; lia.
      - rewrite <- Z.mul_assoc, <- Z.pow_add_r by lia. reflexivity. }
    rewrite Pos.compare_cont_spec. simpl Pos.switch_Eq.
    assert (Hgt : (pm ?= 7036874417766400)%positive = Gt).
    { apply Pos.compare_gt_iff.
      assert (E47 : 2 ^ 47 = 140737488355328) by reflexivity.
      rewrite E47 in Em'. lia. }
    rewrite Hgt. reflexivity.
Qed.

Lemma StringToNumber_digits (n : Z) :
  0 <= n -> StringToNumber (string_of_list_ascii (digits n)) = nearest false n 1.
Proof.
  intros Hn. destruct (digits_spec n Hn) as (Hd & Hne & Hv).
  destruct (digits n) as [|c r] eqn:E; [congruence|].
  assert (Hc : is_digit c = true) by (simpl in Hd; now apply andb_prop in Hd).
  destruct (signed_digits_numbers (string_of_list_ascii (c :: r)) false (c :: r))
    as [H _]; try assumption.
  - rewrite list_ascii_of_string_of_list_ascii. now apply split_sign_digit.
  - now rewrite H, Hv.
Qed.

(** X14: a limit written as the integer 0 or as an integer above 50 is
    not clamped: the validation chain refuses it, and the request is
    answered with status 400 and a ValidationError whose message names the
    limit, whatever the rest of the request. *)
Theorem limit_out_of_range_refused
    (usdaApiKey : option string) (upstream : Upstream) (req : Request) (n : Z) :
  n = 0 \/ 50 < n ->
  query_limit req = Some (string_of_list_ascii (digits n)) ->
  let r := get_foods usdaApiKey upstream req in
  status r = 400 /\ error_type r = Some "ValidationError"
  /\ limit_errors req = ["Limit must be a number between 1 and 50"]
  /\ exists message,
       body r = ErrorBody {|
         error := "Invalid request parameters: " ++ message;
         type := "ValidationError";
         upstream_status := None;
         upstream_details := None;
         original_error := None |}
       /\ message = join ", " (type_errors req ++ limit_errors req).
Proof.
  intros Hn Hq r. subst r.
  assert (Hi : isInt 1 50 (string_of_list_ascii (digits n)) = false).
  { unfold isInt. rewrite (StringToNumber_digits n ltac:(lia)).
    destruct (split_sign _) as [neg body].
    destruct Hn as [->|Hn].
    - rewrite of_Z_1.
      replace (leb _ (nearest false 0 1)) with false by (vm_compute; reflexivity).
      now rewrite andb_false_r.
    - rewrite of_Z_50, (nearest_above_50 n Hn). now rewrite andb_false_r. }
  assert (Hl : limit_errors req = ["Limit must be a number between 1 and 50"]).
  { unfold limit_errors. now rewrite Hq, Hi. }
  assert (Hv : validateFoodsQuery req <> []).
  { unfold validateFoodsQuery. rewrite Hl. intros E. apply app_eq_nil in E as [_ E].
    discriminate E. }
  rewrite (get_foods_invalid usdaApiKey upstream req Hv).
  repeat split; try assumption. eexists. split; reflexivity.
Qed.

Lemma limit_out_of_range_refused_witness :
  let r := get_foods (Some "key") empty_search
             {| query_type := Some "apple"; query_limit := Some "51" |} in
  status r = 400 /\ error_type r = Some "ValidationError".
Proof.
  intros r.
  destruct (limit_out_of_range_refused (Some "key") empty_search
              {| query_type := Some "apple"; query_limit := Some "51" |} 51
              ltac:(right; reflexivity) eq_refl) as (H1 & H2 & _).
  split; assumption.
Defined.

(** * Values of any size *)

(** ** Reading back what [String] prints *)

Lemma nearest_opp (p q : Z) : nearest true p q = SFopp (nearest false p q).
Proof.
  unfold nearest. destruct (p <=? 0); [reflexivity|].
  destruct (round_half_even _ _ =? 2 ^ 53).
  - destruct (_ >? 2045); reflexivity.
  - destruct (_ >? 2045); [reflexivity|]. destruct (round_half_even _ _); reflexivity.
Qed.

Lemma decimal_value_opp (mant ex : Z) :
  decimal_value true mant ex = SFopp (decimal_value false mant ex).
Proof. unfold decimal_value. destruct (ex <? 0); apply nearest_opp. Qed.

(** A literal that [Number] can take a minus sign in front of: it starts
    and ends with a digit and is not a hexadecimal, octal or binary one. *)
Definition plain_literal (l : list ascii) : Prop :=
  (exists c r, l = c :: r /\ is_digit c = true)
  /\ (match rev l with [] => False | x :: _ => is_digit x = true end)
  /\ parse_nondecimal l = None.

Lemma StringToNumber_plain (neg : bool) (l : list ascii) :
  plain_literal l ->
  StringToNumber (string_of_list_ascii ((if neg then ["-"%char] else []) ++ l))
  = match parse_unsigned l with
    | Some (mant, ex) => decimal_value neg mant ex
    | None => S754_nan
    end.
Proof.
  intros ((c & r & E & Hc) & Hlast & Hnd).
  unfold StringToNumber. rewrite list_ascii_of_string_of_list_ascii.
  set (t := ((if neg then ["-"%char] else []) ++ l)%list).
  assert (Hfirst : match t with [] => True | x :: _ => is_space x = false end).
  { unfold t. destruct neg; simpl; [reflexivity|]. rewrite E. now apply digit_not_space. }
  assert (Hlastt : match rev t with [] => True | x :: _ => is_space x = false end).
  { unfold t. rewrite rev_app_distr.
    destruct (rev l) as [|x u]; [contradiction|]. simpl. now apply digit_not_space. }
  rewrite (trim_list_id t Hfirst Hlastt).
  assert (Hnil : is_nil t = false) by (unfold t; rewrite E; now destruct neg).
  rewrite Hnil.
  assert (Hnd' : parse_nondecimal t = None).
  { unfold t. destruct neg; [reflexivity|exact Hnd]. }
  rewrite Hnd'. unfold parse_decimal.
  assert (Hs : split_sign t = (neg, l)).
  { unfold t. destruct neg; [reflexivity|]. simpl. rewrite E. now apply split_sign_digit. }
  rewrite Hs. rewrite E at 1. rewrite (list_ascii_eqb_digit_Infinity c r Hc).
  destruct (parse_unsigned l) as [[mant ex]|]; reflexivity.
Qed.

(** With a minus sign the literal reads as the opposite number. *)
Lemma StringToNumber_minus (l : list ascii) :
  plain_literal l ->
  StringToNumber (string_of_list_ascii ("-"%char :: l))
  = SFopp (StringToNumber (string_of_list_ascii l)).
Proof.
  intros H.
  pose proof (StringToNumber_plain true l H) as Ht.
  pose proof (StringToNumber_plain false l H) as Hf.
  cbn [app] in Ht, Hf. rewrite Ht, Hf.
  destruct (parse_unsigned l) as [[mant ex]|]; [apply decimal_value_opp|reflexivity].
Qed.

Lemma last_digit_app (a b : list ascii) :
  b <> [] -> forallb is_digit b = true ->
  match rev (a ++ b) with [] => False | x :: _ => is_digit x = true end.
Proof.
  intros Hb Hd. rewrite rev_app_distr.
  pose proof (forallb_rev_head is_digit b Hd) as H.
  destruct (rev b) as [|x t] eqn:E; [|exact H].
  apply (f_equal (@List.length _)) in E. rewrite length_rev in E.
  destruct b; [congruence|discriminate].
Qed.

Lemma parse_nondecimal_e (c : ascii) (r : list ascii) :
  parse_nondecimal (c :: "e"%char :: r) = None.
Proof.
  unfold parse_nondecimal.
  destruct c as [[] [] [] [] [] [] [] []]; try reflexivity; destruct r; reflexivity.
Qed.

(** Every layout of Number::toString is such a literal. *)
Lemma sci_format_plain (ds : list ascii) (n : Z) :
  ds <> [] -> forallb is_digit ds = true -> plain_literal (sci_format ds n).
Proof.
  intros Hne Hd. unfold sci_format.
  destruct ds as [|d1 rest]; [congruence|].
  assert (Hd1 : is_digit d1 = true) by (simpl in Hd; now apply andb_prop in Hd).
  set (ds := d1 :: rest) in *.
  assert (Eds : ds = d1 :: rest) by reflexivity.
  set (k := Z.of_nat (List.length ds)).
  destruct ((k <=? n) && (n <=? 21)) eqn:C1.
  { (* digits followed by zeros *)
    assert (Hall : forallb is_digit (ds ++ repeat "0"%char (Z.to_nat (n - k))) = true).
    { rewrite forallb_app, Hd. apply forallb_digit_zeros. }
    split; [|split].
    - rewrite Eds. simpl. eauto.
    - pose proof (forallb_rev_head is_digit _ Hall) as H.
      destruct (rev (ds ++ _)) as [|x t] eqn:E; [|exact H].
      apply (f_equal (@List.length _)) in E. rewrite length_rev, length_app, Eds in E.
      discriminate.
    - now apply parse_nondecimal_digits. }
  destruct ((0 <? n) && (n <=? 21)) eqn:C2.
  { (* a decimal point inside the digits *)
    apply andb_prop in C2 as [Hn0 Hn21]. apply Z.ltb_lt in Hn0.
    assert (Hnk : n < k).
    { destruct (Z.leb_spec k n) as [H|H]; [|exact H].
      rewrite Hn21 in C1. discriminate. }
    pose proof (firstn_skipn (Z.to_nat n) ds) as Hsplit.
    assert (Hboth : forallb is_digit (firstn (Z.to_nat n) ds) = true
                    /\ forallb is_digit (skipn (Z.to_nat n) ds) = true).
    { rewrite <- Hsplit, forallb_app in Hd. now apply andb_prop in Hd. }
    destruct Hboth as [Hfa Hfb].
    assert (Hsk : skipn (Z.to_nat n) ds <> []).
    { intros E. apply (f_equal (@List.length _)) in E. rewrite length_skipn in E.
      change (List.length (@nil ascii)) with 0%nat in E. unfold k in Hnk. lia. }
    split; [|split].
    - rewrite Eds. destruct (Z.to_nat n) as [|j] eqn:Ej; [lia|]. simpl. eauto.
    - change (firstn (Z.to_nat n) ds ++ "."%char :: skipn (Z.to_nat n) ds)%list
        with (firstn (Z.to_nat n) ds ++ ["."%char] ++ skipn (Z.to_nat n) ds)%list.
      rewrite app_assoc. now apply last_digit_app.
    - now apply parse_nondecimal_point. }
  destruct ((-6 <? n) && (n <=? 0)) eqn:C3.
  { (* zeros after the decimal point *)
    split; [|split].
    - exists "0"%char. eexists. split; reflexivity.
    - change ("0"%char :: "."%char :: repeat "0"%char (Z.to_nat (- n)) ++ ds)%list
        with (("0"%char :: "."%char :: repeat "0"%char (Z.to_nat (- n))) ++ ds)%list.
      now apply last_digit_app.
    - apply (parse_nondecimal_point ["0"%char]). reflexivity. }
  (* an exponent *)
  destruct (digits_spec (Z.abs (n - 1)) (Z.abs_nonneg _)) as (Hed & Hene & _).
  set (sg := if n - 1 <? 0 then "-"%char else "+"%char).
  unfold ds. destruct rest as [|d2 rest'].
  - split; [|split].
    + eauto.
    + change (d1 :: "e"%char :: sg :: digits (Z.abs (n - 1)))
        with ([d1; "e"%char; sg] ++ digits (Z.abs (n - 1)))%list.
      now apply last_digit_app.
    + apply parse_nondecimal_e.
  - split; [|split].
    + eauto.
    + replace (d1 :: "."%char :: (d2 :: rest') ++ "e"%char :: sg :: digits (Z.abs (n - 1)))%list
        with ((d1 :: "."%char :: (d2 :: rest') ++ ["e"%char; sg])
              ++ digits (Z.abs (n - 1)))%list
        by (cbn [app]; rewrite <- app_assoc; reflexivity).
      now apply last_digit_app.
    + apply (parse_nondecimal_point [d1]). simpl. now rewrite Hd1.
Qed.

(** ** Numbers in range *)

(** A finite number whose significand and exponent are those of a binary64
    value. *)
Definition bounded (x : number) : Prop :=
  match x with
  | S754_finite _ m e => Z.pos m < 2 ^ 53 /\ e <= 971
  | _ => True
  end.

Lemma div_lt_pow (a b N : Z) : 0 <= a -> 0 < b -> a / b < N -> a < b * N.
Proof.
  intros Ha Hb H.
  pose proof (Z.div_mod a b ltac:(lia)). pose proof (Z.mod_pos_bound a b Hb). nia.
Qed.

(** What [nearest] returns is in range. *)
Lemma nearest_bounded (s : bool) (p q : Z) : 0 < q -> bounded (nearest s p q).
Proof.
  intros Hq. unfold nearest.
  destruct (Z.leb_spec p 0) as [_|Hp]; [exact I|].
  set (P := p * 2 ^ 1074).
  assert (HP : 0 < P).
  { unfold P. apply Z.mul_pos_pos; [exact Hp|]. apply Z.pow_pos_nonneg; lia. }
  set (k := Z.log2 (P / q)).
  assert (Hk0 : 0 <= k) by apply Z.log2_nonneg.
  set (sh := Z.max (k - 52) 0).
  assert (Hden : 0 < q * 2 ^ sh).
  { apply Z.mul_pos_pos; [exact Hq|]. apply Z.pow_pos_nonneg; lia. }
  assert (Hquot : P / q < 2 ^ (k + 1)).
  { destruct (Z.le_gt_cases (P / q) 0) as [H0|H0].
    - eapply Z.le_lt_trans; [exact H0|]. apply Z.pow_pos_nonneg; lia.
    - pose proof (Z.log2_spec _ H0) as [_ Hhi]. exact Hhi. }
  assert (Hm : round_half_even P (q * 2 ^ sh) <= 2 ^ 53).
  { apply round_half_even_le; [lia|exact Hden|].
    pose proof (div_lt_pow P q (2 ^ (k + 1)) ltac:(lia) Hq Hquot) as Hlt.
    assert (Hpow : 2 ^ (k + 1) <= 2 ^ 53 * 2 ^ sh).
    { rewrite <- Z.pow_add_r by lia. apply Z.pow_le_mono_r; lia. }
    nia. }
  set (m := round_half_even P (q * 2 ^ sh)) in *.
  assert (E53 : 2 ^ 53 = 9007199254740992) by reflexivity.
  change (2 ^ 52) with 4503599627370496.
  destruct (Z.eqb_spec m (2 ^ 53)) as [E|Hne].
  - destruct (Z.gtb_spec (sh + 1) 2045); [exact I|].
    cbv beta iota. unfold bounded. rewrite E53. lia.
  - destruct (Z.gtb_spec sh 2045); [exact I|].
    destruct m as [|pm|pm]; try exact I.
    cbv beta iota. unfold bounded. rewrite E53 in *. lia.
Qed.

Lemma digits2_pos_bound (m : positive) : Z.pos m < 2 ^ Z.pos (digits2_pos m).
Proof.
  induction m as [m IH|m IH|]; cbn [digits2_pos].
  - rewrite Pos2Z.inj_succ, Z.pow_succ_r by lia. lia.
  - rewrite Pos2Z.inj_succ, Z.pow_succ_r by lia. lia.
  - reflexivity.
Qed.

(** A binary64 value in canonical form is in range. *)
Lemma valid_bounded (x : number) : valid_number x = true -> bounded x.
Proof.
  destruct x as [s|s| |s m e]; try (intros _; exact I).
  unfold valid_number, valid_binary, SpecFloat.bounded, canonical_mantissa, fexp, emin.
  intros H. apply andb_prop in H as [Hc He].
  apply Z.eqb_eq in Hc. apply Z.leb_le in He. split; [|lia].
  pose proof (digits2_pos_bound m) as Hd.
  eapply Z.lt_le_trans; [exact Hd|]. apply Z.pow_le_mono_r; lia.
Qed.

Lemma exact_num_bound (m : positive) (e : Z) :
  Z.pos m < 2 ^ 53 -> e <= 971 -> exact_num m e <= (2 ^ 53 - 1) * 2 ^ 971.
Proof.
  intros Hm He. unfold exact_num.
  assert (Hpow : 2 ^ Z.max e 0 <= 2 ^ 971) by (apply Z.pow_le_mono_r; lia).
  assert (Hpos : 0 < 2 ^ Z.max e 0) by (apply Z.pow_pos_nonneg; lia).
  assert (E53 : 2 ^ 53 = 9007199254740992) by reflexivity.
  rewrite E53 in *. nia.
Qed.

(** Dividing a finite number in range by 4.184 or by 1000 gives a finite
    number in range. *)
Lemma div_finite (x : number) (mc : positive) (ec : Z) :
  is_finite x = true -> bounded x ->
  2 ^ 52 <= Z.pos mc -> -52 <= ec <= 0 ->
  is_finite (div x (S754_finite false mc ec)) = true
  /\ bounded (div x (S754_finite false mc ec)).
Proof.
  intros Hf Hb Hmc Hec. destruct x as [s|s| |s m e]; try discriminate.
  - split; [reflexivity|exact I].
  - destruct Hb as [Hm He]. unfold div.
    assert (Hden : 0 < exact_den e * exact_num mc ec).
    { apply Z.mul_pos_pos; [apply exact_den_pos|apply exact_num_pos]. }
    split; [|now apply nearest_bounded].
    apply nearest_finite; [exact Hden|].
    pose proof (exact_num_bound m e Hm He) as Hnum.
    pose proof (exact_num_pos m e) as Hnum0.
    pose proof (exact_den_pos e) as Hde.
    unfold exact_den at 1. unfold exact_num at 2.
    replace (Z.max ec 0) with 0 by lia. rewrite Z.pow_0_r, Z.mul_1_r.
    assert (Hp : 2 ^ Z.max (- ec) 0 <= 2 ^ 52) by (apply Z.pow_le_mono_r; lia).
    assert (Hp0 : 0 < 2 ^ Z.max (- ec) 0) by (apply Z.pow_pos_nonneg; lia).
    set (A := exact_num m e) in *. set (B := exact_den e) in *.
    set (W := 2 ^ Z.max (- ec) 0) in *. set (U := 2 ^ 971) in *.
    assert (HU : 0 < U) by (apply Z.pow_pos_nonneg; lia).
    assert (E52 : 2 ^ 52 = 4503599627370496) by reflexivity.
    assert (E53 : 2 ^ 53 = 9007199254740992) by reflexivity.
    assert (E54 : 2 ^ 54 = 18014398509481984) by reflexivity.
    rewrite E52 in *. rewrite E53 in *. rewrite E54.
    assert (H1 : 2 * (A * W) <= 2 * ((9007199254740992 - 1) * U) * 4503599627370496) by nia.
    assert (H2 : (18014398509481984 - 1) * U * (1 * 4503599627370496)
                 <= (18014398509481984 - 1) * U * (B * Z.pos mc)) by nia.
    nia.
Qed.

(** ** [Number(x.toFixed(d))] is finite *)

Lemma number_eqb_finite (x y : number) :
  number_eqb x y = true -> is_finite y = true -> is_finite x = true.
Proof. destruct x, y; simpl; congruence. Qed.

Lemma is_finite_opp (x : number) : is_finite (SFopp x) = is_finite x.
Proof. destruct x; reflexivity. Qed.

Lemma candidates_plain (p q n0 : Z) (k : nat) (l : list ascii) :
  0 <= p -> 0 < q -> In l (candidates p q n0 k) -> plain_literal l.
Proof.
  intros Hp Hq. unfold candidates.
  set (a := if Z.of_nat k - n0 <? 0 then p else p * 10 ^ (Z.of_nat k - n0)).
  set (b := if Z.of_nat k - n0 <? 0 then q * 10 ^ (- (Z.of_nat k - n0)) else q).
  assert (Ha : 0 <= a).
  { unfold a. destruct (Z.ltb_spec (Z.of_nat k - n0) 0); [exact Hp|].
    apply Z.mul_nonneg_nonneg; [exact Hp|]. apply Z.pow_nonneg. lia. }
  assert (Hb : 0 < b).
  { unfold b. destruct (Z.ltb_spec (Z.of_nat k - n0) 0); [|exact Hq].
    apply Z.mul_pos_pos; [exact Hq|]. apply Z.pow_pos_nonneg; lia. }
  assert (Hnear : 0 <= round_half_even a b) by now apply round_half_even_nonneg.
  assert (Hdiv : 0 <= a / b) by (apply Z.div_pos; lia).
  assert (Hplain : forall z n, 0 <= z -> plain_literal (sci_format (digits z) n)).
  { intros z n Hz. destruct (digits_spec z Hz) as (Hd & Hne & _).
    now apply sci_format_plain. }
  intros Hin. apply in_app_or in Hin as [Hin|Hin]; [|apply in_app_or in Hin as [Hin|Hin]].
  - destruct (_ && _); [|contradiction]. destruct Hin as [<-|[]]. now apply Hplain.
  - destruct (_ && _); [|contradiction]. destruct Hin as [<-|[]]. apply Hplain.
    destruct (round_half_even a b =? a / b); lia.
  - destruct k as [|[|k]]; try contradiction. destruct Hin as [<-|[]].
    apply (Hplain 1). lia.
Qed.

(** [Number] reads what [String] prints for a finite number in range as a
    finite number. *)
Lemma NumberToString_finite (s : bool) (m : positive) (e : Z) :
  Z.pos m < 2 ^ 53 -> e <= 971 ->
  is_finite (StringToNumber (NumberToString (S754_finite s m e))) = true.
Proof.
  intros Hm He. unfold NumberToString, positive_to_chars.
  set (p := exact_num m e). set (q := exact_den e).
  pose proof (exact_num_pos m e) as Hp. pose proof (exact_den_pos e) as Hq.
  fold p in Hp. fold q in Hq.
  destruct (find _ _) as [l|] eqn:F.
  - apply find_some in F as [Hin Hrb].
    apply in_flat_map in Hin as (k & _ & Hin).
    pose proof (candidates_plain p q _ k l ltac:(lia) Hq Hin) as Hplain.
    unfold reads_back in Hrb.
    pose proof (number_eqb_finite _ _ Hrb eq_refl) as Hfin.
    destruct s.
    + change (["-"%char] ++ l)%list with ("-"%char :: l).
      rewrite (StringToNumber_minus l Hplain), is_finite_opp. exact Hfin.
    + exact Hfin.
  - set (d := Z.to_nat (- e)).
    set (n := round_half_up (p * 10 ^ Z.of_nat d) q).
    assert (H10 : 0 < 10 ^ Z.of_nat d) by (apply Z.pow_pos_nonneg; lia).
    assert (Hn : 0 <= n) by (apply round_half_up_nonneg; nia).
    rewrite (StringToNumber_fixed s d n Hn), decimal_value_nearest.
    apply nearest_finite; [exact H10|].
    assert (Hle : n <= p * 10 ^ Z.of_nat d) by (apply round_half_up_le; nia).
    pose proof (exact_num_bound m e Hm He) as Hb. fold p in Hb.
    assert (E53 : 2 ^ 53 = 9007199254740992) by reflexivity.
    assert (E54 : 2 ^ 54 = 18014398509481984) by reflexivity.
    rewrite E53 in Hb. rewrite E54.
    set (U := 2 ^ 971) in *.
    assert (HU : 0 < U) by (apply Z.pow_pos_nonneg; lia).
    nia.
Qed.

(** Whatever the size of a finite number in range, rounding it with
    [toFixed] and reading the result back gives a finite number. *)
Lemma Number_toFixed_finite (d : nat) (x : number) :
  is_finite x = true -> bounded x -> is_finite (Number_toFixed d x) = true.
Proof.
  intros Hf Hb. destruct x as [s|s| |s m e]; try discriminate.
  - now rewrite Number_toFixed_zero.
  - destruct (Z.ltb_spec (exact_num m e) (10 ^ 21 * exact_den e)) as [Hs|Hbig].
    + now destruct (Number_toFixed_small d s m e Hs) as (-> & H & _).
    + unfold Number_toFixed, toFixed.
      destruct (Z.leb_spec (10 ^ 21 * exact_den e) (exact_num m e)) as [_|H]; [|lia].
      destruct Hb as [Hm He]. now apply NumberToString_finite.
Qed.

(** ** No numeric field is NaN or infinite *)

Lemma StringToNumber_bounded (str : string) : bounded (StringToNumber str).
Proof.
  unfold StringToNumber.
  destruct (is_nil _); [exact I|].
  destruct (parse_nondecimal _) as [z|]; [apply nearest_bounded; lia|].
  unfold parse_decimal. destruct (split_sign _) as [neg r].
  destruct (list_ascii_eqb _ _); [exact I|].
  destruct (parse_unsigned r) as [[mant ex]|]; [|exact I].
  unfold decimal_value. destruct (Z.ltb_spec ex 0).
  - apply nearest_bounded. apply Z.pow_pos_nonneg; lia.
  - apply nearest_bounded. lia.
Qed.

(** A record whose [value], when it is a number, is a binary64 value: any
    record that [JSON.parse] has built. *)
Definition valid_record (n : value) : Prop :=
  forall y, opt_get n "value" = Num y -> valid_number y = true.

Lemma value_of_bounded (m : value) (x : number) :
  valid_record m -> value_of m = Return x -> bounded x.
Proof.
  intros Hv. unfold value_of.
  destruct m as [| |b|y|s|l|fs]; simpl; try discriminate;
    try (intros [= <-]; exact I).
  specialize (Hv) as Hv'. unfold valid_record in Hv'. simpl in Hv'.
  destruct (lookup "value" fs) as [| |b|y|s|l|fs'] eqn:E.
  - intros [= <-]. exact I.
  - intros [= <-]. exact I.
  - intros [= <-]. destruct b; [|exact I]. apply nearest_bounded. lia.
  - intros [= <-]. apply valid_bounded, Hv'. reflexivity.
  - intros [= <-]. apply StringToNumber_bounded.
  - unfold ToNumber. destruct (ToString (Arr l)); simpl; [|discriminate].
    intros [= <-]. apply StringToNumber_bounded.
  - unfold ToNumber. destruct (ToString (Obj fs')); simpl; [|discriminate].
    intros [= <-]. apply StringToNumber_bounded.
Qed.

(** [null], or a number that is neither NaN nor infinite. *)
Definition finite_or_null (r : option number) : Prop :=
  match r with
  | Some x => is_finite x = true
  | None => True
  end.

Lemma rounded_value_finite (d : nat) (from : string) (mc : positive) (ec : Z) (m : value) :
  2 ^ 52 <= Z.pos mc -> -52 <= ec <= 0 -> valid_record m ->
  finite_or_null (rounded_value d from (S754_finite false mc ec) m).
Proof.
  intros Hmc Hec Hv. unfold rounded_value.
  destruct (negb (truthy m)); [exact I|].
  destruct (unit_of m) as [unit|]; [|exact I]. simpl.
  destruct (value_of m) as [x|] eqn:Ex; [|exact I]. simpl.
  pose proof (value_of_bounded m x Hv Ex) as Hb.
  destruct (is_finite x) eqn:Hf; [|exact I]. simpl.
  destruct (String.eqb unit from); simpl.
  - destruct (div_finite x mc ec Hf Hb Hmc Hec) as [Hf' Hb'].
    now apply Number_toFixed_finite.
  - now apply Number_toFixed_finite.
Qed.

Lemma extractors_finite (nutrients : list value) (idsOrNames : list string) :
  Forall valid_record nutrients ->
  finite_or_null (getEnergyKcal nutrients)
  /\ finite_or_null (getNutrientGrams nutrients idsOrNames).
Proof.
  intros Hall. rewrite Forall_forall in Hall. split.
  - rewrite getEnergyKcal_located.
    destruct (findNutrient nutrients ["1008"; "Energy"]) as [m|] eqn:F; [|exact I].
    rewrite kJ_per_kcal_value. apply rounded_value_finite; [reflexivity || lia|lia|].
    apply Hall. now apply findNutrient_In in F.
  - rewrite getNutrientGrams_located.
    destruct (findNutrient nutrients idsOrNames) as [m|] eqn:F; [|exact I].
    rewrite mg_per_g_value. apply rounded_value_finite; [reflexivity || lia|lia|].
    apply Hall. now apply findNutrient_In in F.
Qed.

(** X15: when every nutrient record of every upstream item carries, if a
    number at all, a binary64 value (as anything [JSON.parse] built does),
    each numeric field of each normalized food is [null] or a finite number:
    never NaN and never an infinity, whatever the magnitude of the value,
    its unit, or the other properties of the records. *)
Theorem numeric_fields_finite_or_null (foods : list value) (food : NormalizedFood) :
  (forall item, In item foods -> Forall valid_record (nutrients_of item)) ->
  In food (normalized foods) ->
  finite_or_null (calories food)
  /\ finite_or_null (protein_g (macros food))
  /\ finite_or_null (carbs_g (macros food))
  /\ finite_or_null (fat_g (macros food)).
Proof.
  intros Hall Hin. unfold normalized in Hin.
  apply in_flat_map in Hin as (item & Hitem & Hin).
  specialize (Hall item Hitem).
  unfold normalize, normalize_body in Hin. simpl in Hin.
  destruct Hin as [<-|[]]. simpl.
  repeat split.
  - apply (extractors_finite (nutrients_of item) []), Hall.
  - apply (extractors_finite (nutrients_of item) protein_ids), Hall.
  - apply (extractors_finite (nutrients_of item) carbs_ids), Hall.
  - apply (extractors_finite (nutrients_of item) fat_ids), Hall.
Qed.

(** An item whose energy is 10^300 kJ and whose protein is the string
    "1e400", which [Number] reads as Infinity. *)
Definition huge_item : value :=
  Obj [("fdcId", Num (of_Z 1));
       ("foodNutrients",
        Arr [Obj [("nutrientNumber", Str "1008"); ("unitName", Str "kJ");
                  ("value", Num (of_Z (10 ^ 300)))];
             Obj [("nutrientNumber", Str "1003"); ("unitName", Str "g");
                  ("value", Str "1e400")]])].

Lemma numeric_fields_finite_or_null_witness :
  exists food,
    normalized [huge_item] = [food]
    /\ finite_or_null (calories food)
    /\ finite_or_null (protein_g (macros food))
    /\ finite_or_null (carbs_g (macros food))
    /\ finite_or_null (fat_g (macros food)).
Proof.
  assert (Hv : forall item, In item [huge_item] -> Forall valid_record (nutrients_of item)).
  { intros item [<-|[]].
    repeat constructor; intros y E; vm_compute in E; try discriminate E.
    injection E as <-. vm_compute. reflexivity. }
  eexists. split; [reflexivity|].
  apply (numeric_fields_finite_or_null [huge_item] _ Hv). left. reflexivity.
Defined.
